(** * DockaCord: Docker event notifications for a Discord webhook

    A shallow embedding of the two variants of the program found in the
    repository:

    - [main.go], which classifies actions through three global lookup
      maps filled once at startup ([Module Main]);
    - the earlier variant (kept as [unnamed/part_000]), which scans the
      configured slices on every event ([Module Part000]).

    Go strings are byte sequences and are modelled by [string]; Go [int]
    and [int64] values are modelled by [Z]; Go maps by stdpp's [gmap].
    Code that both variants share verbatim is embedded once. *)

From Stdlib Require Import ZArith Ascii.
From stdpp Require Import gmap strings list pretty.

Local Open Scope Z_scope.

(** ** Data model *)

(** A Go [error] value, identified with the text [%v] prints for it. *)
Definition error := string.

(** [type Config struct] *)
Record Config := mkConfig {
  Webhook : string;
  Error : list string;
  Warning : list string;
  Info : list string
}.

(** [var defaultConfig] *)
Definition defaultConfig : Config :=
  {| Webhook := "discord-webhook-url";
     Error := ["die"];
     Warning := ["stop"];
     Info := ["start"] |}.

(** The fields of [events.Actor] and [events.Message] (Docker API) that the
    program reads.  [Type_] is the field [Type]. *)
Record events_Actor := mkActor {
  Attributes : gmap string string
}.

Record events_Message := mkMessage {
  Type_ : string;
  Action : string;
  Actor : events_Actor; Time : Z
}.

(** [events.ContainerEventType] *)
Definition events_ContainerEventType : string := "container".

(** Reading a Go [map[string]string]: a missing key reads as the empty
    string. *)
Definition attr (m : gmap string string) (k : string) : string :=
  default "" (m !! k).

(** The webhook document built by [notifyDiscord]: the map literal with
    the keys [username], [avatar_url] and [embeds], the single embed with
    the keys [title], [url], [description], [color], [footer.text],
    [author.name] and [author.icon_url]. *)
Record Embed := mkEmbed {
  e_title : string;
  e_url : string;
  e_description : string;
  e_color : Z;
  e_footer_text : string;
  e_author_name : string;
  e_author_icon_url : string
}.

Record Payload := mkPayload {
  p_username : string;
  p_avatar_url : string;
  p_embeds : list Embed
}.

(** [*http.Response]: the status code, and what closing the body returns. *)
Record Response := mkResponse {
  StatusCode : Z;
  Body_Close : option error
}.

Definition http_StatusOK : Z := 200.
Definition http_StatusNoContent : Z := 204.

(** The values that [signalChan] can carry: [signal.Notify] registers
    exactly [syscall.SIGINT] and [syscall.SIGTERM]. *)
Inductive os_Signal := SIGINT | SIGTERM.

(** [%v] of a signal is its [String()]. *)
Definition signal_String (sig : os_Signal) : string :=
  match sig with
  | SIGINT => "interrupt"
  | SIGTERM => "terminated"
  end.

(** ** Effects

    What the program does to the outside, as the calls it makes: a line
    written through package [log] (without the time stamp prefix), a call
    of [http.Post] with its arguments, and a call of [Close] on the body
    of a response it was given.  What the HTTP client does for one call
    (nothing on the wire when the URL does not parse, further requests
    when it follows a redirect) is inside the library and is not
    recorded.  File writes are recorded in the file store. *)
Inductive Effect :=
| Log (line : string)
| HttpPost (url contentType body : string)
| BodyClose.

Inductive Syscall := SysStat | SysRead | SysWrite.

(** The world the process runs in: the files by path, the system calls
    the operating system refuses (permissions, I/O errors), and the
    effects performed so far, oldest first. *)
Record World := mkWorld {
  w_files : gmap string string;
  w_deny : Syscall -> string -> option error;
  w_out : list Effect
}.

(** The library functions the program calls, outside the repository:
    the JSON encoder and decoder with their error results, and the HTTP
    client, which answers a call of [http.Post] given everything that
    happened before it. *)
Class Runtime := {
  json_Marshal : Payload -> string + error;
  json_MarshalIndent : Config -> string -> string -> string * option error;
  json_Unmarshal : string -> Config + error;
  http_transport : list Effect -> string -> string -> string -> Response + error
}.

(** State passing over [World]. *)
Definition IO (A : Type) : Type := World -> A * World.

Global Instance IO_ret : MRet IO := fun A a w => (a, w).
Global Instance IO_bind : MBind IO :=
  fun A B k m w => let '(a, w') := m w in k a w'.

Definition emit (e : Effect) : IO unit :=
  fun w => (tt, mkWorld (w_files w) (w_deny w) (w_out w ++ [e])).

(** [log.Println] and [log.Printf], the line already formatted. *)
Definition log_Println (line : string) : IO unit := emit (Log line).
Definition log_Printf (line : string) : IO unit := emit (Log line).

(** [os.Stat], as far as [loadConfig] looks at its result. *)
Inductive StatResult := StatOk | StatNotExist | StatFail (err : error).

Definition os_Stat (filename : string) : IO StatResult :=
  fun w =>
    match w_deny w SysStat filename with
    | Some err => (StatFail err, w)
    | None =>
        match w_files w !! filename with
        | Some _ => (StatOk, w)
        | None => (StatNotExist, w)
        end
    end.

(** [os.WriteFile]: creates or truncates the file; a refused write is
    taken to leave the store as it was. *)
Definition os_WriteFile (filename data : string) : IO (option error) :=
  fun w =>
    match w_deny w SysWrite filename with
    | Some err => (Some err, w)
    | None => (None, mkWorld (<[filename := data]> (w_files w)) (w_deny w) (w_out w))
    end.

(** [os.ReadFile] *)
Definition os_ReadFile (filename : string) : IO (string + error) :=
  fun w =>
    match w_deny w SysRead filename with
    | Some err => (inr err, w)
    | None =>
        match w_files w !! filename with
        | Some data => (inl data, w)
        | None => (inr "no such file or directory", w)
        end
    end.

(** [http.Post]: the call is recorded and the environment gives its
    result, a response or an error. *)
Definition http_Post `{Runtime} (url contentType body : string)
  : IO (Response + error) :=
  fun w =>
    (http_transport (w_out w) url contentType body,
     mkWorld (w_files w) (w_deny w) (w_out w ++ [HttpPost url contentType body])).

(** [resp.Body.Close()] *)
Definition Body_Close_call (resp : Response) : IO (option error) :=
  emit BodyClose ;; mret (Body_Close resp).

(** ** Formatting *)

Definition nl : string := String (ascii_of_nat 10) "".

(** [%d] of an integer. *)
Definition fmt_d (n : Z) : string := pretty n.

Definition upper_byte (c : ascii) : ascii :=
  let n := nat_of_ascii c in
  if ((97 <=? n) && (n <=? 122))%nat then ascii_of_nat (n - 32) else c.

(** [strings.ToUpper] on ASCII strings, which the level names are: the
    bytes [a]..[z] become [A]..[Z].  (On other bytes Go maps Unicode
    letters; no such string is passed by the program.) *)
Fixpoint strings_ToUpper (s : string) : string :=
  match s with
  | EmptyString => EmptyString
  | String c rest => String (upper_byte c) (strings_ToUpper rest)
  end.

(** ** [getColor] *)

(** [func getColor(level string) int] *)
Definition getColor (level : string) : Z :=
  if decide (level = "warning") then 16776960
  else if decide (level = "error") then 16711680
  else 3066993.

(** ** [notifyDiscord]

    The two variants differ in the avatar reference only, which is a
    parameter here. *)

Definition formattedTimeR (event : events_Message) : string :=
  "<t:" +:+ fmt_d (Time event) +:+ ":R>".

Definition formattedTimeF (event : events_Message) : string :=
  "<t:" +:+ fmt_d (Time event) +:+ ":F>".

(** The [payload] map literal. *)
Definition payload (avatar : string) (event : events_Message) (level : string)
  : Payload :=
  {| p_username := "DockaCord";
     p_avatar_url := avatar;
     p_embeds :=
       [ {| e_title := "Docker Event Notification - " +:+ strings_ToUpper level;
            e_url := "https://lyzev.dev/";
            e_description :=
              "**Container**: `" +:+ attr (Attributes (Actor event)) "name"
              +:+ "`" +:+ nl +:+ "**Action**: `" +:+ Action event
              +:+ "`" +:+ nl +:+ "**At**: " +:+ formattedTimeF event
              +:+ " (" +:+ formattedTimeR event +:+ ")";
            e_color := getColor level;
            e_footer_text := "© 2025 Lyzev.";
            e_author_name := "Notification Bot";
            e_author_icon_url := avatar |} ] |}.

(** The statements after a response has arrived: the status check, then
    the deferred close of the body. *)
Definition afterResponse (resp : Response) : IO unit :=
  (if negb (bool_decide (StatusCode resp = http_StatusOK))
      && negb (bool_decide (StatusCode resp = http_StatusNoContent))
   then log_Printf ("Unexpected HTTP status: " +:+ fmt_d (StatusCode resp))
   else log_Println "Successfully sent Discord notification") ;;
  closeErr ← Body_Close_call resp;
  match closeErr with
  | Some err => log_Printf ("Failed to close response body: " +:+ err)
  | None => mret tt
  end.

(** [func notifyDiscord(event events.Message, level string, webhookURL string)] *)
Definition notifyDiscordWith `{Runtime} (avatar : string)
    (event : events_Message) (level webhookURL : string) : IO unit :=
  match json_Marshal (payload avatar event level) with
  | inr err => log_Printf ("Failed to marshal payload: " +:+ err)
  | inl payloadBytes =>
      if decide (webhookURL = "")
      then log_Println "Missing Discord webhook URL in config"
      else
        r ← http_Post webhookURL "application/json" payloadBytes;
        match r with
        | inr err => log_Printf ("Failed to send webhook: " +:+ err)
        | inl resp => afterResponse resp
        end
  end.

(** ** [loadConfig] *)

(** [func loadConfig(filename string)], returning the configuration or
    the error. *)
Definition loadConfig `{Runtime} (filename : string) : IO (Config + error) :=
  st ← os_Stat filename;
  match st with
  | StatNotExist =>
      log_Println "Config file not found, creating default config.json" ;;
      let defBytes := fst (json_MarshalIndent defaultConfig "" "  ") in
      writeErr ← os_WriteFile filename defBytes;
      match writeErr with
      | Some err => mret (inr ("failed to create default config: " +:+ err))
      | None => mret (inl defaultConfig)
      end
  | StatFail err => mret (inr ("cannot stat config file: " +:+ err))
  | StatOk =>
      rd ← os_ReadFile filename;
      match rd with
      | inr err => mret (inr ("cannot read config file: " +:+ err))
      | inl configBytes =>
          match json_Unmarshal configBytes with
          | inr err => mret (inr ("invalid JSON in config file: " +:+ err))
          | inl cfg => mret (inl cfg)
          end
      end
  end.

(** ** The event loop *)

(** The two states of the loop: blocked in (or on its way back to) the
    [select], or returned. *)
Inductive LoopState := Running | Stopped.

(** What one [select] can receive: a message from [msgs], a value from
    [errs] (possibly [nil]), or a signal from [signalChan]. *)
Inductive Ready :=
| RecvMsg (event : events_Message)
| RecvErr (err : option error)
| RecvSig (sig : os_Signal).

Section Loop.
Context `{Runtime}.
Variable handleEvent : events_Message -> Config -> IO unit.

(** One iteration of the [for { select { ... } }]. *)
Definition selectStep (r : Ready) (cfg : Config) : IO LoopState :=
  match r with
  | RecvMsg event =>
      (if decide (Type_ event = events_ContainerEventType)
       then handleEvent event cfg
       else mret tt) ;;
      mret Running
  | RecvErr err =>
      match err with
      | Some e => log_Printf ("Error receiving Docker event: " +:+ e)
      | None => mret tt
      end ;;
      mret Running
  | RecvSig sig =>
      log_Printf ("Received signal " +:+ signal_String sig +:+ ", shutting down") ;;
      mret Stopped
  end.

(** The loop over the values the channels deliver, in the order the
    [select] receives them.  It returns on a signal; when the list is
    used up the loop is blocked in the [select], still [Running]. *)
Fixpoint selectLoop (rs : list Ready) (cfg : Config) : IO LoopState :=
  match rs with
  | [] => mret Running
  | r :: rest =>
      st ← selectStep r cfg;
      match st with
      | Stopped => mret Stopped
      | Running => selectLoop rest cfg
      end
  end.
End Loop.

(** ** Startup *)

(** [log.Fatalf]: the line is logged and the process exits with status 1,
    which is the result here. *)
Definition log_Fatalf {A : Type} (line : string) : IO (A + Z) :=
  emit (Log line) ;; mret (inr 1).

(** ** The earlier variant: slices scanned on every event *)

Module Part000.

Definition avatar : string := "https://i.imgur.com/zlREvEQ.png".

Definition notifyDiscord `{Runtime} := notifyDiscordWith avatar.

(** [func inSlice(action string, actions []string) bool] *)
Fixpoint inSlice (action : string) (actions : list string) : bool :=
  match actions with
  | [] => false
  | a :: rest => if decide (a = action) then true else inSlice action rest
  end.

(** [func getEventLevel(action string, cfg *Config) string] *)
Definition getEventLevel (action : string) (cfg : Config) : string :=
  if inSlice action (Error cfg) then "error"
  else if inSlice action (Warning cfg) then "warning"
  else if inSlice action (Info cfg) then "info"
  else "".

(** [func handleEvent(event events.Message, cfg *Config)] *)
Definition handleEvent `{Runtime} (event : events_Message) (cfg : Config)
  : IO unit :=
  let level := getEventLevel (Action event) cfg in
  if decide (level = "") then mret tt
  else
    log_Printf ("Event: action=" +:+ Action event +:+ ", level=" +:+ level) ;;
    notifyDiscord event level (Webhook cfg).

(** [func handleDockerEvents(msgs, errs, signalChan, cfg)] *)
Definition handleDockerEvents `{Runtime} (rs : list Ready) (cfg : Config)
  : IO LoopState :=
  selectLoop handleEvent rs cfg.

(** [func main()], up to the [go] statement.  [newClient] is the error
    result of [client.NewClientWithOpts].  The result is the exit status
    of [log.Fatalf], or the configuration the loop task is started with. *)
Definition main `{Runtime} (newClient : option error) : IO (Config + Z) :=
  r ← loadConfig "config.json";
  match r with
  | inr err => log_Fatalf ("Failed to load config: " +:+ err)
  | inl cfg =>
      match newClient with
      | Some err => log_Fatalf ("Failed to create Docker client: " +:+ err)
      | None => log_Println "Docker client created" ;; mret (inl cfg)
      end
  end.

End Part000.

(** ** [main.go]: lookup maps filled at startup *)

Module Main.

Definition avatar : string :=
  "https://raw.githubusercontent.com/Lyzev/DockaCord/refs/heads/master/assets/docker-mark-blue.png".

Definition notifyDiscord `{Runtime} := notifyDiscordWith avatar.

(** The three package-level lookup maps. *)
Record Globals := mkGlobals {
  errorActions : gmap string bool;
  warnActions : gmap string bool;
  infoActions : gmap string bool
}.

(** Reading a Go [map[string]bool]: a missing key reads as [false]. *)
Definition index (m : gmap string bool) (k : string) : bool :=
  default false (m !! k).

(** [func init()] *)
Definition init : Globals :=
  {| errorActions := ∅; warnActions := ∅; infoActions := ∅ |}.

(** One [for _, a := range xs { m[a] = true }] loop. *)
Definition setAll (xs : list string) (m : gmap string bool) : gmap string bool :=
  foldl (fun acc a => <[a := true]> acc) m xs.

(** [func populateActionMaps(cfg *Config)] *)
Definition populateActionMaps (cfg : Config) (g : Globals) : Globals :=
  {| errorActions := setAll (Error cfg) (errorActions g);
     warnActions := setAll (Warning cfg) (warnActions g);
     infoActions := setAll (Info cfg) (infoActions g) |}.

(** [func getEventLevel(action string) string] *)
Definition getEventLevel (g : Globals) (action : string) : string :=
  if index (errorActions g) action then "error"
  else if index (warnActions g) action then "warning"
  else if index (infoActions g) action then "info"
  else "".

(** [func handleEvent(event events.Message, cfg *Config)] *)
Definition handleEvent `{Runtime} (g : Globals) (event : events_Message)
    (cfg : Config) : IO unit :=
  let level := getEventLevel g (Action event) in
  if decide (level = "") then mret tt
  else
    log_Printf ("Event: action=" +:+ Action event +:+ ", level=" +:+ level) ;;
    notifyDiscord event level (Webhook cfg).

(** [func handleDockerEvents(msgs, errs, signalChan, cfg)] *)
Definition handleDockerEvents `{Runtime} (g : Globals) (rs : list Ready)
    (cfg : Config) : IO LoopState :=
  selectLoop (handleEvent g) rs cfg.

(** [func main()], up to the [go] statement, run after [init].
    [newClient] is the error result of [client.NewClientWithOpts].  The
    result is the exit status of [log.Fatalf], or the configuration and
    the maps the loop task is started with. *)
Definition main `{Runtime} (newClient : option error)
  : IO (Config * Globals + Z) :=
  r ← loadConfig "config.json";
  match r with
  | inr err => log_Fatalf ("Failed to load config: " +:+ err)
  | inl cfg =>
      let g := populateActionMaps cfg init in
      match newClient with
      | Some err => log_Fatalf ("Failed to create Docker client: " +:+ err)
      | None => log_Println "Docker client created" ;; mret (inl (cfg, g))
      end
  end.

End Main.

(** ** The classifier as the specification words it

    Severity is one of four values; the level strings of the program are
    their names, with the empty string for "no match". *)
Inductive Severity := SevError | SevWarning | SevInfo | SevNone.

Definition level_of (s : Severity) : string :=
  match s with
  | SevError => "error"
  | SevWarning => "warning"
  | SevInfo => "info"
  | SevNone => ""
  end.

(** Membership in the error list first, then warning, then info; [none]
    if absent from all three. *)
Definition classify (action : string) (rules : Config) : Severity :=
  if bool_decide (action ∈ Error rules) then SevError
  else if bool_decide (action ∈ Warning rules) then SevWarning
  else if bool_decide (action ∈ Info rules) then SevInfo
  else SevNone.

(** ** Vocabulary of the statements *)

(** The world after some more effects, the files untouched. *)
Definition appended (w : World) (es : list Effect) : World :=
  mkWorld (w_files w) (w_deny w) (w_out w ++ es).

(** The effects a computation adds when run in a world. *)
Definition effects_of {A : Type} (m : IO A) (w : World) : list Effect :=
  drop (length (w_out w)) (w_out (snd (m w))).

(** The program reaches the network through calls of [http.Post] only. *)
Definition is_network (e : Effect) : bool :=
  match e with
  | HttpPost _ _ _ => true
  | _ => false
  end.

(** [sub] occurs in [s]. *)
Definition strings_Contains (s sub : string) : Prop :=
  ∃ pre post, s = pre +:+ sub +:+ post.

(** The number of calls of [http.Post], and of calls of [Close] on a
    response body, in a trace. *)
Definition posts (es : list Effect) : nat := length (List.filter is_network es).

Definition is_close (e : Effect) : bool :=
  match e with
  | BodyClose => true
  | _ => false
  end.

Definition closes (es : list Effect) : nat := length (List.filter is_close es).

(** A call of [http.Post], if the effect is one, is given [url] and the
    JSON content type. *)
Definition post_to (url : string) (e : Effect) : Prop :=
  match e with
  | HttpPost u c _ => u = url ∧ c = "application/json"
  | _ => True
  end.

(** What one call of [notifyDiscord] may add to the trace: at most one
    call of [http.Post], given [url] and the JSON content type, and none
    when [url] is empty; and no more calls of [Close] than of
    [http.Post]. *)
Definition one_delivery (url : string) (es : list Effect) : Prop :=
  Forall (post_to url) es
  ∧ (posts es ≤ 1)%nat
  ∧ (closes es ≤ posts es)%nat
  ∧ (url = "" → posts es = 0%nat).

(** The values a loop gets to see: those received before the first
    signal. *)
Fixpoint before_signal (rs : list Ready) : list Ready :=
  match rs with
  | [] => []
  | RecvSig _ :: _ => []
  | r :: rest => r :: before_signal rest
  end.

(** A received value that is a container event whose action is in one of
    the configured lists. *)
Definition notifiable (cfg : Config) (r : Ready) : bool :=
  match r with
  | RecvMsg event =>
      bool_decide (Type_ event = events_ContainerEventType)
      && match classify (Action event) cfg with
         | SevNone => false
         | _ => true
         end
  | _ => false
  end.

(** A received value that leaves no trace: a message that is not a
    container event (the zero message of a closed channel is one), or a
    nil error. *)
Definition idle (r : Ready) : bool :=
  match r with
  | RecvMsg event => negb (bool_decide (Type_ event = events_ContainerEventType))
  | RecvErr None => true
  | _ => false
  end.

(** ** Sample data *)

(** The event of the end-to-end scenarios. *)
Definition sampleEvent (type : string) : events_Message :=
  {| Type_ := type;
     Action := "die";
     Actor := {| Attributes := {[ "name" := "web-1" ]} |};
     Time := 1700000000 |}.

(** The text [json.MarshalIndent(defaultConfig, "", "  ")] produces. *)
Definition quoted (s : string) : string :=
  String (ascii_of_nat 34) (s +:+ String (ascii_of_nat 34) "").

Definition defaultConfigJSON : string :=
  "{" +:+ nl
  +:+ "  " +:+ quoted "webhook" +:+ ": " +:+ quoted "discord-webhook-url" +:+ "," +:+ nl
  +:+ "  " +:+ quoted "error" +:+ ": [" +:+ nl
  +:+ "    " +:+ quoted "die" +:+ nl
  +:+ "  ]," +:+ nl
  +:+ "  " +:+ quoted "warning" +:+ ": [" +:+ nl
  +:+ "    " +:+ quoted "stop" +:+ nl
  +:+ "  ]," +:+ nl
  +:+ "  " +:+ quoted "info" +:+ ": [" +:+ nl
  +:+ "    " +:+ quoted "start" +:+ nl
  +:+ "  ]" +:+ nl
  +:+ "}".

(** An environment for the examples.  The payload encoder is a stand-in
    that writes the description of the embed.  The configuration encoder
    writes the default configuration, the only one the program encodes;
    the decoder accepts that text and rejects every other as malformed.
    The transport always gives [answer]. *)
Definition sampleRuntime (answer : Response + error) : Runtime :=
  {| json_Marshal := fun p => inl (default "" (e_description <$> head (p_embeds p)));
     json_MarshalIndent := fun _ _ _ => (defaultConfigJSON, None);
     json_Unmarshal := fun data =>
       if decide (data = defaultConfigJSON) then inl defaultConfig
       else inr "unexpected end of JSON input";
     http_transport := fun _ _ _ _ => answer |}.

(** A well-formed JSON object that does not fit [Config]: its "webhook"
    is a number. *)
Definition mistypedConfigJSON : string :=
  "{" +:+ quoted "webhook" +:+ ": 5}".

(** The environment of the examples with a decoder that answers as
    [json.Unmarshal] does on the texts used here: it decodes the encoded
    default configuration, refuses the mistyped object with the type
    error, and refuses every other text as truncated. *)
Definition typedRuntime : Runtime :=
  {| json_Marshal := fun p => inl (default "" (e_description <$> head (p_embeds p)));
     json_MarshalIndent := fun _ _ _ => (defaultConfigJSON, None);
     json_Unmarshal := fun data =>
       if decide (data = defaultConfigJSON) then inl defaultConfig
       else if decide (data = mistypedConfigJSON)
       then inr "json: cannot unmarshal number into Go struct field Config.webhook of type string"
       else inr "unexpected end of JSON input";
     http_transport := fun _ _ _ _ => inr "offline" |}.

(** A world with the given files, nothing refused and nothing done yet. *)
Definition quietWorld (files : gmap string string) : World :=
  mkWorld files (fun _ _ => None) [].

(** * Properties *)

(** ** Classification *)

Lemma bool_decide_elem_of_cons (k a : string) (rest : list string) :
  bool_decide (k ∈ a :: rest) = bool_decide (k = a) || bool_decide (k ∈ rest).
Proof.
  destruct (decide (k = a)) as [->|Hne].
  - rewrite (bool_decide_eq_true_2 (a ∈ a :: rest)) by apply list_elem_of_here.
    by rewrite bool_decide_eq_true_2.
  - rewrite (bool_decide_eq_false_2 (k = a)) by exact Hne. simpl.
    apply bool_decide_ext. rewrite elem_of_cons.
    split; [intros [Heq|Hin]; [contradiction|exact Hin] | auto].
Qed.

Lemma inSlice_elem_of (action : string) (actions : list string) :
  Part000.inSlice action actions = bool_decide (action ∈ actions).
Proof.
  induction actions as [|a rest IH]; cbn [Part000.inSlice].
  - symmetry. apply bool_decide_eq_false_2, not_elem_of_nil.
  - rewrite bool_decide_elem_of_cons, IH.
    destruct (decide (a = action)) as [->|Hne].
    + by rewrite bool_decide_eq_true_2.
    + rewrite (bool_decide_eq_false_2 (action = a)); [reflexivity|congruence].
Qed.

Lemma index_insert_true (m : gmap string bool) (a k : string) :
  Main.index (<[a := true]> m) k = bool_decide (k = a) || Main.index m k.
Proof.
  unfold Main.index. destruct (decide (k = a)) as [->|Hne].
  - rewrite lookup_insert_eq. by rewrite bool_decide_eq_true_2.
  - rewrite lookup_insert_ne by done. by rewrite bool_decide_eq_false_2.
Qed.

Lemma index_setAll (xs : list string) (m : gmap string bool) (k : string) :
  Main.index (Main.setAll xs m) k = bool_decide (k ∈ xs) || Main.index m k.
Proof.
  unfold Main.setAll. revert m.
  induction xs as [|a rest IH]; intros m; cbn [foldl].
  - by rewrite bool_decide_eq_false_2 by apply not_elem_of_nil.
  - rewrite IH, index_insert_true, bool_decide_elem_of_cons.
    by destruct (bool_decide (k = a)), (bool_decide (k ∈ rest)), (Main.index m k).
Qed.

Lemma index_empty (k : string) : Main.index ∅ k = false.
Proof. unfold Main.index. by rewrite lookup_empty. Qed.

Lemma index_populated (xs : list string) (k : string) :
  Main.index (Main.setAll xs ∅) k = bool_decide (k ∈ xs).
Proof. by rewrite index_setAll, index_empty, orb_false_r. Qed.

Lemma Part000_getEventLevel_classify (action : string) (cfg : Config) :
  Part000.getEventLevel action cfg = level_of (classify action cfg).
Proof.
  unfold Part000.getEventLevel, classify. rewrite !inSlice_elem_of.
  repeat case_bool_decide; reflexivity.
Qed.

Lemma Main_getEventLevel_classify (action : string) (cfg : Config) :
  Main.getEventLevel (Main.populateActionMaps cfg Main.init) action
  = level_of (classify action cfg).
Proof.
  unfold Main.getEventLevel, classify. simpl. rewrite !index_populated.
  repeat case_bool_decide; reflexivity.
Qed.

(** C1.  For every action and every configuration, both classifiers (the
    slice scan, and the lookup maps filled from the configuration at
    startup) return the name of exactly one of the four severities, chosen
    by first match: error if the action is in the error list, else warning
    if it is in the warning list, else info if it is in the info list,
    else none (the empty string).  An action in several lists is thereby
    resolved with error before warning before info. *)
Theorem getEventLevel_first_match (action : string) (cfg : Config) :
  Part000.getEventLevel action cfg = level_of (classify action cfg)
  ∧ Main.getEventLevel (Main.populateActionMaps cfg Main.init) action
    = level_of (classify action cfg)
  ∧ (action ∈ Error cfg → classify action cfg = SevError)
  ∧ (action ∉ Error cfg → action ∈ Warning cfg →
     classify action cfg = SevWarning)
  ∧ (action ∉ Error cfg → action ∉ Warning cfg → action ∈ Info cfg →
     classify action cfg = SevInfo)
  ∧ (action ∉ Error cfg → action ∉ Warning cfg → action ∉ Info cfg →
     classify action cfg = SevNone).
Proof.
  split; [apply Part000_getEventLevel_classify|].
  split; [apply Main_getEventLevel_classify|].
  unfold classify. repeat split; intros; repeat case_bool_decide; done.
Qed.

(** An action present in all three lists is an error, in both variants. *)
Example getEventLevel_overlap :
  let cfg := mkConfig "" ["stop"; "die"] ["die"; "stop"] ["die"] in
  Part000.getEventLevel "die" cfg = "error"
  ∧ Main.getEventLevel (Main.populateActionMaps cfg Main.init) "die" = "error"
  ∧ Part000.getEventLevel "kill" cfg = "".
Proof. repeat split; vm_compute; reflexivity. Qed.

(** C9.  The two classifiers agree: for every configuration and every
    action, the lookup in the maps filled once from the configuration by
    [populateActionMaps] (starting from the empty maps of [init]) returns
    the level that the scan of the configured slices returns. *)
Theorem getEventLevel_variants_agree (cfg : Config) (action : string) :
  Main.getEventLevel (Main.populateActionMaps cfg Main.init) action
  = Part000.getEventLevel action cfg.
Proof.
  unfold Main.getEventLevel, Part000.getEventLevel. simpl.
  by rewrite !index_populated, !inSlice_elem_of.
Qed.

(** ** Colours *)

(** C6.  The colour is a total function of the level: yellow (16776960)
    for "warning", red (16711680) for "error", and green (3066993) for
    every other string, among them "info" and the empty level. *)
Theorem getColor_mapping (level : string) :
  getColor "warning" = 16776960
  ∧ getColor "error" = 16711680
  ∧ getColor "info" = 3066993
  ∧ getColor "" = 3066993
  ∧ ((level = "warning" ∧ getColor level = 16776960)
     ∨ (level = "error" ∧ getColor level = 16711680)
     ∨ (level ≠ "warning" ∧ level ≠ "error" ∧ getColor level = 3066993)).
Proof.
  repeat split; try reflexivity.
  unfold getColor. repeat case_decide; auto.
Qed.

(** ** Strings *)

Lemma append_nil_l (t : string) : "" +:+ t = t.
Proof. reflexivity. Qed.

Lemma append_cons (c : ascii) (s t : string) :
  String c s +:+ t = String c (s +:+ t).
Proof. reflexivity. Qed.

Lemma length_append (s t : string) :
  String.length (s +:+ t) = (String.length s + String.length t)%nat.
Proof.
  induction s as [|c s IH]; [reflexivity|].
  rewrite append_cons. simpl. by rewrite IH.
Qed.

Lemma append_inj_length (s1 s2 t1 t2 : string) :
  String.length t1 = String.length t2 →
  s1 +:+ t1 = s2 +:+ t2 → s1 = s2 ∧ t1 = t2.
Proof.
  intros Hlen. revert s2. induction s1 as [|c s1 IH]; intros [|c2 s2] Heq.
  - by rewrite !append_nil_l in Heq.
  - apply (f_equal String.length) in Heq.
    rewrite append_nil_l, append_cons in Heq. simpl in Heq.
    rewrite length_append in Heq. lia.
  - apply (f_equal String.length) in Heq.
    rewrite append_nil_l, append_cons in Heq. simpl in Heq.
    rewrite length_append in Heq. lia.
  - rewrite !append_cons in Heq. injection Heq as -> Heq.
    destruct (IH _ Heq) as [-> ->]. done.
Qed.

Lemma append_inj_r (t s1 s2 : string) : s1 +:+ t = s2 +:+ t → s1 = s2.
Proof. intros Heq. by apply (append_inj_length s1 s2 t t). Qed.

Lemma append_assoc (a b c : string) : (a +:+ b) +:+ c = a +:+ b +:+ c.
Proof.
  induction a as [|x a IH]; [reflexivity|].
  rewrite !append_cons. by rewrite IH.
Qed.

Lemma contains_intro (pre sub post : string) :
  strings_Contains (pre +:+ sub +:+ post) sub.
Proof. by exists pre, post. Qed.

Lemma formattedTimeF_inj (e1 e2 : events_Message) :
  formattedTimeF e1 = formattedTimeF e2 → Time e1 = Time e2.
Proof.
  unfold formattedTimeF, fmt_d. intros Heq.
  apply (inj (String.append "<t:")) in Heq.
  apply append_inj_r in Heq. by apply (inj pretty) in Heq.
Qed.

Lemma formattedTimeR_inj (e1 e2 : events_Message) :
  formattedTimeR e1 = formattedTimeR e2 → Time e1 = Time e2.
Proof.
  unfold formattedTimeR, fmt_d. intros Heq.
  apply (inj (String.append "<t:")) in Heq.
  apply append_inj_r in Heq. by apply (inj pretty) in Heq.
Qed.

Lemma formattedTime_distinct (e1 e2 : events_Message) :
  formattedTimeF e1 ≠ formattedTimeR e2.
Proof.
  unfold formattedTimeF, formattedTimeR. intros Heq.
  apply (inj (String.append "<t:")) in Heq.
  apply append_inj_length in Heq as [_ Heq]; [discriminate|reflexivity].
Qed.

(** ** Rendering *)

(** C5.  The payload is a function of the event and the severity alone
    (of the event, only the actor's "name" attribute, the action and the
    time are read).  It holds one embed.  Its title is the fixed label
    followed by the name of the severity in upper case.  Its description
    is the fixed text around the value stored under "name" in the actor's
    attributes, the raw action, and two renderings of the event's time,
    [<t:T:F>] and [<t:T:R>]; so a name that is stored is contained in the
    description, as are the action and both renderings, which differ from
    each other and each of which determines the epoch value [T]. *)
Theorem payload_render (avatar : string) (event : events_Message) (s : Severity) :
  ∃ e,
    p_embeds (payload avatar event (level_of s)) = [e]
    ∧ e_title e
      = "Docker Event Notification - "
        +:+ match s with
            | SevError => "ERROR"
            | SevWarning => "WARNING"
            | SevInfo => "INFO"
            | SevNone => ""
            end
    ∧ e_description e
      = "**Container**: `" +:+ default "" (Attributes (Actor event) !! "name")
        +:+ "`" +:+ nl +:+ "**Action**: `" +:+ Action event
        +:+ "`" +:+ nl +:+ "**At**: <t:" +:+ pretty (Time event)
        +:+ ":F> (<t:" +:+ pretty (Time event) +:+ ":R>)"
    ∧ (∀ n, Attributes (Actor event) !! "name" = Some n →
         strings_Contains (e_description e) n)
    ∧ strings_Contains (e_description e) (Action event)
    ∧ strings_Contains (e_description e) ("<t:" +:+ pretty (Time event) +:+ ":F>")
    ∧ strings_Contains (e_description e) ("<t:" +:+ pretty (Time event) +:+ ":R>")
    ∧ formattedTimeF event = "<t:" +:+ pretty (Time event) +:+ ":F>"
    ∧ formattedTimeR event = "<t:" +:+ pretty (Time event) +:+ ":R>"
    ∧ formattedTimeF event ≠ formattedTimeR event
    ∧ (∀ event', formattedTimeF event' = formattedTimeF event ↔ Time event' = Time event)
    ∧ (∀ event', formattedTimeR event' = formattedTimeR event ↔ Time event' = Time event)
    ∧ (∀ event',
         Attributes (Actor event') !! "name" = Attributes (Actor event) !! "name" →
         Action event' = Action event →
         Time event' = Time event →
         payload avatar event' (level_of s) = payload avatar event (level_of s)).
Proof.
  eexists. split; [reflexivity|]. cbn [e_title e_description].
  split; [by destruct s|].
  assert (Hdescr :
    "**Container**: `" +:+ attr (Attributes (Actor event)) "name"
    +:+ "`" +:+ nl +:+ "**Action**: `" +:+ Action event
    +:+ "`" +:+ nl +:+ "**At**: " +:+ formattedTimeF event
    +:+ " (" +:+ formattedTimeR event +:+ ")"
    = "**Container**: `" +:+ default "" (Attributes (Actor event) !! "name")
      +:+ "`" +:+ nl +:+ "**Action**: `" +:+ Action event
      +:+ "`" +:+ nl +:+ "**At**: <t:" +:+ pretty (Time event)
      +:+ ":F> (<t:" +:+ pretty (Time event) +:+ ":R>)").
  { unfold attr, formattedTimeF, formattedTimeR, fmt_d.
    rewrite !append_assoc. reflexivity. }
  rewrite Hdescr.
  split; [reflexivity|].
  split.
  { intros n Hn. rewrite Hn. apply contains_intro. }
  split.
  { exists ("**Container**: `" +:+ default "" (Attributes (Actor event) !! "name")
            +:+ "`" +:+ nl +:+ "**Action**: `"),
           ("`" +:+ nl +:+ "**At**: <t:" +:+ pretty (Time event)
            +:+ ":F> (<t:" +:+ pretty (Time event) +:+ ":R>)").
    by rewrite !append_assoc. }
  split.
  { exists ("**Container**: `" +:+ default "" (Attributes (Actor event) !! "name")
            +:+ "`" +:+ nl +:+ "**Action**: `" +:+ Action event
            +:+ "`" +:+ nl +:+ "**At**: "),
           (" (<t:" +:+ pretty (Time event) +:+ ":R>)").
    rewrite !append_assoc. reflexivity. }
  split.
  { exists ("**Container**: `" +:+ default "" (Attributes (Actor event) !! "name")
            +:+ "`" +:+ nl +:+ "**Action**: `" +:+ Action event
            +:+ "`" +:+ nl +:+ "**At**: <t:" +:+ pretty (Time event) +:+ ":F> ("),
           ")".
    rewrite !append_assoc. reflexivity. }
  split; [reflexivity|]. split; [reflexivity|].
  split; [apply formattedTime_distinct|].
  split.
  { intros event'. split; [apply formattedTimeF_inj|].
    unfold formattedTimeF. by intros ->. }
  split.
  { intros event'. split; [apply formattedTimeR_inj|].
    unfold formattedTimeR. by intros ->. }
  intros event' Hname Haction Htime.
  unfold payload, attr, formattedTimeF, formattedTimeR.
  by rewrite Hname, Haction, Htime.
Qed.

(** The end-to-end scenario of a container dying under the default
    configuration: severity error, a title with ERROR, the container name
    and the action in the description, and the red colour. *)
Example payload_die :
  let level := Part000.getEventLevel "die" defaultConfig in
  level = "error"
  ∧ p_embeds (payload Main.avatar (sampleEvent "container") level)
    = [ {| e_title := "Docker Event Notification - ERROR";
           e_url := "https://lyzev.dev/";
           e_description :=
             "**Container**: `web-1`" +:+ nl +:+ "**Action**: `die`" +:+ nl
             +:+ "**At**: <t:1700000000:F> (<t:1700000000:R>)";
           e_color := 16711680;
           e_footer_text := "© 2025 Lyzev.";
           e_author_name := "Notification Bot";
           e_author_icon_url := Main.avatar |} ].
Proof. split; vm_compute; reflexivity. Qed.

(** ** Running computations *)

Lemma appended_appended (w : World) (es1 es2 : list Effect) :
  appended (appended w es1) es2 = appended w (es1 ++ es2).
Proof. unfold appended. simpl. by rewrite app_assoc. Qed.

Lemma appended_nil (w : World) : appended w [] = w.
Proof. destruct w. unfold appended. simpl. by rewrite app_nil_r. Qed.

Lemma effects_of_appended {A : Type} (m : IO A) (w : World) (a : A)
    (es : list Effect) :
  m w = (a, appended w es) → effects_of m w = es.
Proof.
  intros Hrun. unfold effects_of. rewrite Hrun. simpl.
  by rewrite drop_app_length.
Qed.

Lemma bind_run {A B : Type} (m : IO A) (k : A → IO B) (w w' : World) (a : A) :
  m w = (a, w') → (m ≫= k) w = k a w'.
Proof. intros Hrun. unfold mbind, IO_bind. by rewrite Hrun. Qed.

Lemma emit_run (e : Effect) (w : World) : emit e w = (tt, appended w [e]).
Proof. reflexivity. Qed.

Lemma http_Post_run `{Runtime} (url contentType body : string) (w : World) :
  http_Post url contentType body w
  = (http_transport (w_out w) url contentType body,
     appended w [HttpPost url contentType body]).
Proof. reflexivity. Qed.

Lemma afterResponse_run (resp : Response) (w : World) :
  afterResponse resp w =
  (tt, appended w
         (Log (if decide (StatusCode resp = 200 ∨ StatusCode resp = 204)
               then "Successfully sent Discord notification"
               else "Unexpected HTTP status: " +:+ fmt_d (StatusCode resp))
          :: BodyClose
          :: match Body_Close resp with
             | Some err => [Log ("Failed to close response body: " +:+ err)]
             | None => []
             end)).
Proof.
  unfold afterResponse, Body_Close_call, log_Printf, log_Println,
    http_StatusOK, http_StatusNoContent.
  set (line := if decide (StatusCode resp = 200 ∨ StatusCode resp = 204)
               then _ else _).
  assert (Hstatus :
    (if negb (bool_decide (StatusCode resp = 200))
        && negb (bool_decide (StatusCode resp = 204))
     then emit (Log ("Unexpected HTTP status: " +:+ fmt_d (StatusCode resp)))
     else emit (Log "Successfully sent Discord notification")) = emit (Log line)).
  { subst line. repeat case_bool_decide; case_decide; simpl; try reflexivity; tauto. }
  rewrite Hstatus.
  rewrite (bind_run _ _ w _ tt (emit_run _ _)).
  erewrite (bind_run (emit BodyClose ≫= _)); last first.
  { rewrite (bind_run _ _ _ _ tt (emit_run _ _)). reflexivity. }
  rewrite appended_appended.
  destruct (Body_Close resp) as [err|].
  - rewrite emit_run, appended_appended. reflexivity.
  - reflexivity.
Qed.

Lemma notifyDiscord_offline_run `{Runtime} (avatar : string)
    (event : events_Message) (level payloadBytes : string) (w : World) :
  json_Marshal (payload avatar event level) = inl payloadBytes →
  notifyDiscordWith avatar event level "" w
  = (tt, appended w [Log "Missing Discord webhook URL in config"]).
Proof. intros Hm. unfold notifyDiscordWith. rewrite Hm. reflexivity. Qed.

Lemma notifyDiscord_post_run `{Runtime} (avatar : string)
    (event : events_Message) (level webhookURL payloadBytes : string)
    (w : World) :
  json_Marshal (payload avatar event level) = inl payloadBytes →
  webhookURL ≠ "" →
  notifyDiscordWith avatar event level webhookURL w
  = match http_transport (w_out w) webhookURL "application/json" payloadBytes with
    | inr err =>
        (tt, appended w [HttpPost webhookURL "application/json" payloadBytes;
                         Log ("Failed to send webhook: " +:+ err)])
    | inl resp =>
        afterResponse resp
          (appended w [HttpPost webhookURL "application/json" payloadBytes])
    end.
Proof.
  intros Hm Hurl. unfold notifyDiscordWith. rewrite Hm.
  rewrite decide_False by exact Hurl.
  rewrite (bind_run _ _ w _ _ (http_Post_run _ _ _ _)).
  destruct (http_transport _ _ _ _) as [resp|err]; [reflexivity|].
  unfold log_Printf. by rewrite emit_run, appended_appended.
Qed.

(** With an empty webhook no request is made, whatever the encoder does. *)
Lemma notifyDiscord_empty_webhook_offline `{Runtime} (avatar : string)
    (event : events_Message) (level : string) (w : World) :
  Forall (fun e => is_network e = false)
    (effects_of (notifyDiscordWith avatar event level "") w).
Proof.
  unfold notifyDiscordWith.
  destruct (json_Marshal _) as [payloadBytes|err];
    (erewrite effects_of_appended; [|reflexivity]); by repeat constructor.
Qed.

(** ** Delivery *)

(** C2.  With an empty webhook URL, [notifyDiscord] (in both variants,
    whatever the avatar) makes no HTTP request: once the payload is
    encoded (the encoder cannot refuse a document of strings and
    integers), all it does is log that the webhook is missing and return;
    the files are untouched. *)
Theorem notifyDiscord_empty_webhook `{Runtime} (avatar : string)
    (event : events_Message) (level payloadBytes : string) (w : World) :
  json_Marshal (payload avatar event level) = inl payloadBytes →
  notifyDiscordWith avatar event level "" w
  = (tt, appended w [Log "Missing Discord webhook URL in config"])
  ∧ effects_of (notifyDiscordWith avatar event level "") w
    = [Log "Missing Discord webhook URL in config"]
  ∧ Forall (fun e => is_network e = false)
      (effects_of (notifyDiscordWith avatar event level "") w).
Proof.
  intros Hm.
  pose proof (notifyDiscord_offline_run avatar event level payloadBytes w Hm) as Hrun.
  split; [exact Hrun|].
  split; [by apply effects_of_appended with tt|].
  apply notifyDiscord_empty_webhook_offline.
Qed.

Lemma notifyDiscord_empty_webhook_witness :
  let rt := sampleRuntime (inl (mkResponse 204 None)) in
  let event := sampleEvent "container" in
  @json_Marshal rt (payload Main.avatar event "error")
  = inl ("**Container**: `web-1`" +:+ nl +:+ "**Action**: `die`" +:+ nl
         +:+ "**At**: <t:1700000000:F> (<t:1700000000:R>)")
  ∧ @notifyDiscordWith rt Main.avatar event "error" "" (quietWorld ∅)
    = (tt, appended (quietWorld ∅) [Log "Missing Discord webhook URL in config"]).
Proof.
  split; [reflexivity|].
  apply (@notifyDiscord_empty_webhook (sampleRuntime (inl (mkResponse 204 None)))
           Main.avatar (sampleEvent "container") "error" _ (quietWorld ∅) eq_refl).
Defined.

(** ** The loop, one step at a time *)

Section LoopFacts.
Context `{Runtime}.
Variable handler : events_Message → Config → IO unit.

Lemma selectStep_skip (event : events_Message) (cfg : Config) (w : World) :
  Type_ event ≠ events_ContainerEventType →
  selectStep handler (RecvMsg event) cfg w = (Running, w).
Proof.
  intros Hty. unfold selectStep. rewrite decide_False by exact Hty. reflexivity.
Qed.

Lemma selectStep_msg_running (event : events_Message) (cfg : Config) (w : World) :
  fst (selectStep handler (RecvMsg event) cfg w) = Running.
Proof.
  unfold selectStep, mbind, IO_bind. case_decide; [|reflexivity].
  by destruct (handler event cfg w).
Qed.

Lemma selectStep_err_running (err : option error) (cfg : Config) (w : World) :
  fst (selectStep handler (RecvErr err) cfg w) = Running.
Proof. by destruct err. Qed.

Lemma selectStep_sig (sig : os_Signal) (cfg : Config) (w : World) :
  selectStep handler (RecvSig sig) cfg w
  = (Stopped,
     appended w [Log ("Received signal " +:+ signal_String sig +:+ ", shutting down")]).
Proof. reflexivity. Qed.

Lemma selectLoop_cons (r : Ready) (rest : list Ready) (cfg : Config) (w : World) :
  selectLoop handler (r :: rest) cfg w
  = match selectStep handler r cfg w with
    | (Stopped, w') => (Stopped, w')
    | (Running, w') => selectLoop handler rest cfg w'
    end.
Proof.
  cbn [selectLoop]. unfold mbind, IO_bind.
  by destruct (selectStep handler r cfg w) as [[] w'].
Qed.

Lemma selectLoop_stopped_iff (rs : list Ready) (cfg : Config) (w : World) :
  fst (selectLoop handler rs cfg w) = Stopped ↔ ∃ sig, RecvSig sig ∈ rs.
Proof.
  revert w. induction rs as [|r rest IH]; intros w.
  - split; [discriminate|]. intros [sig Hin]. by apply not_elem_of_nil in Hin.
  - rewrite selectLoop_cons. destruct r as [event|err|sig].
    + pose proof (selectStep_msg_running event cfg w) as Hrun.
      destruct (selectStep handler (RecvMsg event) cfg w) as [st w'].
      simpl in Hrun. subst st. rewrite IH.
      split; intros [sig Hin]; exists sig.
      * by apply list_elem_of_further.
      * apply elem_of_cons in Hin as [Heq|Hin]; [discriminate|exact Hin].
    + pose proof (selectStep_err_running err cfg w) as Hrun.
      destruct (selectStep handler (RecvErr err) cfg w) as [st w'].
      simpl in Hrun. subst st. rewrite IH.
      split; intros [sig Hin]; exists sig.
      * by apply list_elem_of_further.
      * apply elem_of_cons in Hin as [Heq|Hin]; [discriminate|exact Hin].
    + rewrite selectStep_sig. split; [|reflexivity].
      intros _. exists sig. apply list_elem_of_here.
Qed.
End LoopFacts.

Lemma Main_handleEvent_none `{Runtime} (g : Main.Globals)
    (event : events_Message) (cfg : Config) (w : World) :
  Main.getEventLevel g (Action event) = "" →
  Main.handleEvent g event cfg w = (tt, w).
Proof. intros Hlvl. unfold Main.handleEvent. rewrite Hlvl. reflexivity. Qed.

Lemma Part000_handleEvent_none `{Runtime} (event : events_Message)
    (cfg : Config) (w : World) :
  Part000.getEventLevel (Action event) cfg = "" →
  Part000.handleEvent event cfg w = (tt, w).
Proof. intros Hlvl. unfold Part000.handleEvent. rewrite Hlvl. reflexivity. Qed.

(** C4.  When a response arrives, the request counts as sent exactly for
    the status codes 200 and 204; every other code is logged as
    unexpected.  In both cases the body is closed afterwards (a failure
    to close is logged too), [notifyDiscord] returns normally, and the
    loop step that handled the event leaves the loop running. *)
Theorem notifyDiscord_status `{Runtime} (avatar : string)
    (event : events_Message) (level webhookURL payloadBytes : string)
    (resp : Response) (w : World) :
  json_Marshal (payload avatar event level) = inl payloadBytes →
  webhookURL ≠ "" →
  http_transport (w_out w) webhookURL "application/json" payloadBytes = inl resp →
  notifyDiscordWith avatar event level webhookURL w
  = (tt, appended w
           (HttpPost webhookURL "application/json" payloadBytes
            :: Log (if decide (StatusCode resp = 200 ∨ StatusCode resp = 204)
                    then "Successfully sent Discord notification"
                    else "Unexpected HTTP status: " +:+ fmt_d (StatusCode resp))
            :: BodyClose
            :: match Body_Close resp with
               | Some err => [Log ("Failed to close response body: " +:+ err)]
               | None => []
               end))
  ∧ (∀ g cfg, fst (selectStep (Main.handleEvent g) (RecvMsg event) cfg w) = Running)
  ∧ (∀ cfg, fst (selectStep Part000.handleEvent (RecvMsg event) cfg w) = Running).
Proof.
  intros Hm Hurl Hresp. split.
  - rewrite (notifyDiscord_post_run avatar event level webhookURL payloadBytes w Hm Hurl).
    rewrite Hresp, afterResponse_run, appended_appended. reflexivity.
  - split; intros; apply selectStep_msg_running.
Qed.

Lemma notifyDiscord_status_witness :
  let rt := sampleRuntime (inl (mkResponse 500 None)) in
  let event := sampleEvent "container" in
  let body := "**Container**: `web-1`" +:+ nl +:+ "**Action**: `die`" +:+ nl
              +:+ "**At**: <t:1700000000:F> (<t:1700000000:R>)" in
  @notifyDiscordWith rt Main.avatar event "error" "https://discord.test/hook"
    (quietWorld ∅)
  = (tt, appended (quietWorld ∅)
           [HttpPost "https://discord.test/hook" "application/json" body;
            Log "Unexpected HTTP status: 500";
            BodyClose]).
Proof.
  apply (@notifyDiscord_status (sampleRuntime (inl (mkResponse 500 None)))
           Main.avatar (sampleEvent "container") "error"
           "https://discord.test/hook" _ (mkResponse 500 None) (quietWorld ∅)
           eq_refl ltac:(discriminate) eq_refl).
Defined.

(** The same request answered with 204 and with 400. *)
Example notifyDiscord_204_400 :
  effects_of (@notifyDiscordWith (sampleRuntime (inl (mkResponse 204 None)))
                Part000.avatar (sampleEvent "container") "info" "http://h/")
    (quietWorld ∅)
  = [HttpPost "http://h/" "application/json"
       ("**Container**: `web-1`" +:+ nl +:+ "**Action**: `die`" +:+ nl
        +:+ "**At**: <t:1700000000:F> (<t:1700000000:R>)");
     Log "Successfully sent Discord notification"; BodyClose]
  ∧ effects_of (@notifyDiscordWith
                  (sampleRuntime (inl (mkResponse 400 (Some "broken pipe"))))
                  Part000.avatar (sampleEvent "container") "info" "http://h/")
      (quietWorld ∅)
    = [HttpPost "http://h/" "application/json"
         ("**Container**: `web-1`" +:+ nl +:+ "**Action**: `die`" +:+ nl
          +:+ "**At**: <t:1700000000:F> (<t:1700000000:R>)");
       Log "Unexpected HTTP status: 400"; BodyClose;
       Log "Failed to close response body: broken pipe"].
Proof. split; vm_compute; reflexivity. Qed.

Lemma loadConfig_absent `{Runtime} (filename : string) (w : World) :
  (∀ s, w_deny w s filename = None) →
  w_files w !! filename = None →
  loadConfig filename w
  = (inl defaultConfig,
     mkWorld (<[filename := fst (json_MarshalIndent defaultConfig "" "  ")]> (w_files w))
       (w_deny w)
       (w_out w ++ [Log "Config file not found, creating default config.json"])).
Proof.
  intros Hok Hnone. unfold loadConfig.
  erewrite bind_run; last first.
  { unfold os_Stat. rewrite (Hok SysStat), Hnone. reflexivity. }
  cbv beta iota zeta. unfold log_Println.
  rewrite (bind_run _ _ w _ tt (emit_run _ _)).
  erewrite bind_run; last first.
  { unfold os_WriteFile. cbn [appended w_deny]. rewrite (Hok SysWrite). reflexivity. }
  reflexivity.
Qed.

Lemma loadConfig_present `{Runtime} (filename data : string) (w : World) :
  (∀ s, w_deny w s filename = None) →
  w_files w !! filename = Some data →
  loadConfig filename w
  = (match json_Unmarshal data with
     | inl cfg => inl cfg
     | inr err => inr ("invalid JSON in config file: " +:+ err)
     end, w).
Proof.
  intros Hok Hsome. unfold loadConfig.
  erewrite bind_run; last first.
  { unfold os_Stat. rewrite (Hok SysStat), Hsome. reflexivity. }
  cbv beta iota.
  erewrite bind_run; last first.
  { unfold os_ReadFile. rewrite (Hok SysRead), Hsome. reflexivity. }
  cbv beta iota. destruct (json_Unmarshal data); reflexivity.
Qed.

(** C10.  The missing-webhook branch is taken for the empty string only:
    with any other URL the first thing [notifyDiscord] does is the HTTP
    POST to that URL.  The default configuration, which [loadConfig]
    returns when it has just created the file, carries the non-empty
    placeholder "discord-webhook-url"; with it the POST to the placeholder
    is made, and when the transport refuses it the failure to send is
    what gets logged, not the missing webhook. *)
Theorem default_webhook_is_posted `{Runtime} (avatar : string)
    (event : events_Message) (level payloadBytes : string) (w : World) :
  json_Marshal (payload avatar event level) = inl payloadBytes →
  (∀ url, url ≠ "" →
     head (effects_of (notifyDiscordWith avatar event level url) w)
     = Some (HttpPost url "application/json" payloadBytes))
  ∧ (∀ url,
       effects_of (notifyDiscordWith avatar event level url) w
       = [Log "Missing Discord webhook URL in config"] ↔ url = "")
  ∧ Webhook defaultConfig = "discord-webhook-url"
  ∧ (∀ filename w0,
       (∀ s, w_deny w0 s filename = None) → w_files w0 !! filename = None →
       fst (loadConfig filename w0) = inl defaultConfig)
  ∧ (∀ err,
       http_transport (w_out w) "discord-webhook-url" "application/json" payloadBytes
       = inr err →
       effects_of (notifyDiscordWith avatar event level (Webhook defaultConfig)) w
       = [HttpPost "discord-webhook-url" "application/json" payloadBytes;
          Log ("Failed to send webhook: " +:+ err)]).
Proof.
  intros Hm.
  assert (Hposted : ∀ url, url ≠ "" →
    head (effects_of (notifyDiscordWith avatar event level url) w)
    = Some (HttpPost url "application/json" payloadBytes)).
  { intros url Hurl.
    pose proof (notifyDiscord_post_run avatar event level url payloadBytes w Hm Hurl)
      as Hrun.
    destruct (http_transport _ _ _ _) as [resp|err].
    - rewrite afterResponse_run, appended_appended in Hrun.
      by rewrite (effects_of_appended _ _ _ _ Hrun).
    - by rewrite (effects_of_appended _ _ _ _ Hrun). }
  split; [exact Hposted|]. split.
  { intros url. split.
    - intros Heff. destruct (decide (url = "")) as [->|Hurl]; [reflexivity|].
      specialize (Hposted url Hurl). rewrite Heff in Hposted. discriminate.
    - intros ->. apply effects_of_appended with tt.
      by apply notifyDiscord_offline_run with payloadBytes. }
  split; [reflexivity|]. split.
  { intros filename w0 Hok Hnone. by rewrite loadConfig_absent. }
  intros err Herr. apply effects_of_appended with tt.
  rewrite (notifyDiscord_post_run avatar event level _ payloadBytes w Hm);
    [|discriminate].
  cbn [Webhook defaultConfig]. by rewrite Herr.
Qed.

Lemma default_webhook_is_posted_witness :
  let rt := sampleRuntime (inr "unsupported protocol scheme") in
  let body := "**Container**: `web-1`" +:+ nl +:+ "**Action**: `die`" +:+ nl
              +:+ "**At**: <t:1700000000:F> (<t:1700000000:R>)" in
  @json_Marshal rt (payload Main.avatar (sampleEvent "container") "error") = inl body
  ∧ effects_of (@notifyDiscordWith rt Main.avatar (sampleEvent "container") "error"
                  (Webhook defaultConfig)) (quietWorld ∅)
    = [HttpPost "discord-webhook-url" "application/json" body;
       Log "Failed to send webhook: unsupported protocol scheme"].
Proof.
  split; [reflexivity|].
  apply (@default_webhook_is_posted (sampleRuntime (inr "unsupported protocol scheme"))
           Main.avatar (sampleEvent "container") "error" _ (quietWorld ∅) eq_refl).
  reflexivity.
Defined.

(** ** Loading the configuration *)

Lemma loadConfig_run `{Runtime} (filename : string) (w : World) :
  loadConfig filename w
  = match w_deny w SysStat filename with
    | Some err => (inr ("cannot stat config file: " +:+ err), w)
    | None =>
        match w_files w !! filename with
        | Some data =>
            match w_deny w SysRead filename with
            | Some err => (inr ("cannot read config file: " +:+ err), w)
            | None =>
                (match json_Unmarshal data with
                 | inl cfg => inl cfg
                 | inr err => inr ("invalid JSON in config file: " +:+ err)
                 end, w)
            end
        | None =>
            let w1 := appended w [Log "Config file not found, creating default config.json"] in
            match w_deny w SysWrite filename with
            | Some err => (inr ("failed to create default config: " +:+ err), w1)
            | None =>
                (inl defaultConfig,
                 mkWorld
                   (<[filename := fst (json_MarshalIndent defaultConfig "" "  ")]> (w_files w))
                   (w_deny w) (w_out w1))
            end
        end
    end.
Proof.
  unfold loadConfig, os_Stat, os_ReadFile, os_WriteFile, log_Println, emit,
    appended, mbind, IO_bind, mret, IO_ret.
  destruct (w_deny w SysStat filename) as [e|] eqn:Hs; [reflexivity|].
  destruct (w_files w !! filename) as [data|] eqn:Hf; cbv beta iota zeta.
  - rewrite Hf. destruct (w_deny w SysRead filename) as [e|]; [reflexivity|].
    cbv beta iota. destruct (json_Unmarshal data); reflexivity.
  - cbn [w_deny w_files w_out].
    destruct (w_deny w SysWrite filename) as [e|]; reflexivity.
Qed.

(** A refused system call makes [loadConfig] fail, and nothing is written. *)
Lemma loadConfig_refused `{Runtime} (filename : string) (w : World) :
  (∃ err, w_deny w SysStat filename = Some err)
  ∨ (is_Some (w_files w !! filename) ∧ ∃ err, w_deny w SysRead filename = Some err)
  ∨ (w_files w !! filename = None ∧ ∃ err, w_deny w SysWrite filename = Some err) →
  ∃ err, fst (loadConfig filename w) = inr err
         ∧ w_files (snd (loadConfig filename w)) = w_files w.
Proof.
  unfold loadConfig, os_Stat, os_ReadFile, os_WriteFile, log_Println, emit,
    mbind, IO_bind, mret, IO_ret.
  intros [[err Hs]|[[[data Hf] [err Hr]]|[Hf [err Hw]]]].
  - rewrite Hs. eauto.
  - destruct (w_deny w SysStat filename) as [e|]; [eauto|].
    rewrite Hf, Hr. eauto.
  - destruct (w_deny w SysStat filename) as [e|]; [eauto|].
    rewrite Hf. cbn [w_deny w_files]. rewrite Hw. eauto.
Qed.

(** C3, as amended.  When the stat of the path is not refused, nor the
    read of a file that is there, nor the write of one that is not,
    [loadConfig] behaves in exactly three ways.  If no file is there, it
    writes the encoded default configuration to the path, logs that, and
    returns the default.  If a file is there and its contents decode into
    a configuration, it returns that configuration and changes nothing.
    If a file is there and its contents do not decode (malformed JSON, or
    well-formed JSON that does not fit the configuration), it fails with
    the invalid-JSON error and changes nothing, so the file keeps its
    contents. *)
Theorem loadConfig_three_ways `{Runtime} (filename : string) (w : World) :
  w_deny w SysStat filename = None →
  (is_Some (w_files w !! filename) → w_deny w SysRead filename = None) →
  (w_files w !! filename = None → w_deny w SysWrite filename = None) →
  match w_files w !! filename with
  | None =>
      loadConfig filename w
      = (inl defaultConfig,
         mkWorld
           (<[filename := fst (json_MarshalIndent defaultConfig "" "  ")]> (w_files w))
           (w_deny w)
           (w_out w ++ [Log "Config file not found, creating default config.json"]))
  | Some data =>
      match json_Unmarshal data with
      | inl cfg => loadConfig filename w = (inl cfg, w)
      | inr err =>
          loadConfig filename w = (inr ("invalid JSON in config file: " +:+ err), w)
      end
  end.
Proof.
  intros Hstat Hread Hwrite. rewrite loadConfig_run, Hstat.
  destruct (w_files w !! filename) as [data|] eqn:Hfile.
  - rewrite (Hread (mk_is_Some _ _ eq_refl)).
    by destruct (json_Unmarshal data).
  - by rewrite (Hwrite eq_refl).
Qed.

(** A configuration file on a read-only file system: the write would be
    refused, but it is never attempted. *)
Lemma loadConfig_three_ways_witness :
  let w := mkWorld {[ "config.json" := defaultConfigJSON ]}
             (fun s _ => match s with
                         | SysWrite => Some "read-only file system"
                         | _ => None
                         end) [] in
  w_deny w SysWrite "config.json" = Some "read-only file system"
  ∧ @loadConfig (sampleRuntime (inr "offline")) "config.json" w = (inl defaultConfig, w).
Proof.
  split; [reflexivity|].
  pose proof (@loadConfig_three_ways (sampleRuntime (inr "offline")) "config.json"
                (mkWorld {[ "config.json" := defaultConfigJSON ]}
                   (fun s _ => match s with
                               | SysWrite => Some "read-only file system"
                               | _ => None
                               end) [])) as Hthree.
  cbn [w_files w_deny] in Hthree.
  rewrite lookup_singleton_eq in Hthree.
  apply Hthree.
  - reflexivity.
  - intros _. reflexivity.
  - intros Hnone. discriminate Hnone.
Defined.

(** The three ways on concrete files: created, read back, rejected. *)
Example loadConfig_cases :
  let rt := sampleRuntime (inr "offline") in
  let created := snd (@loadConfig rt "config.json" (quietWorld ∅)) in
  let broken := quietWorld {[ "config.json" := "{" ]} in
  w_files created !! "config.json" = Some defaultConfigJSON
  ∧ fst (@loadConfig rt "config.json" created) = inl defaultConfig
  ∧ @loadConfig rt "config.json" broken
    = (inr "invalid JSON in config file: unexpected end of JSON input", broken).
Proof. repeat split; vm_compute; reflexivity. Qed.

(** C3, as stated, fails in two ways.  A file that exists and holds a
    configuration that decodes may not be read: [loadConfig] then returns
    neither the decoded configuration nor the invalid-JSON error, but the
    error of the read.  And a file that holds valid JSON need not decode:
    the well-formed object whose "webhook" is a number is refused with
    the invalid-JSON error. *)
Lemma loadConfig_beyond_three_ways :
  let unreadable := mkWorld {[ "config.json" := defaultConfigJSON ]}
                      (fun s _ => match s with
                                  | SysRead => Some "permission denied"
                                  | _ => None
                                  end) [] in
  let mistyped := quietWorld {[ "config.json" := mistypedConfigJSON ]} in
  (w_files unreadable !! "config.json" = Some defaultConfigJSON
   ∧ @json_Unmarshal typedRuntime defaultConfigJSON = inl defaultConfig
   ∧ @loadConfig typedRuntime "config.json" unreadable
     = (inr "cannot read config file: permission denied", unreadable))
  ∧ (w_files mistyped !! "config.json" = Some mistypedConfigJSON
     ∧ @loadConfig typedRuntime "config.json" mistyped
       = (inr ("invalid JSON in config file: "
               +:+ "json: cannot unmarshal number into Go struct field Config.webhook of type string"),
          mistyped)).
Proof. repeat split; vm_compute; reflexivity. Qed.

(** ** Dispatch *)

(** C7.  A received event whose type is not "container" is dropped by the
    loop before [handleEvent] is reached, whatever the handler and even
    when its action is in a configured list; a container event whose
    action is in none of the lists is dropped by [handleEvent].  In both
    cases the world is left as it was (nothing logged, no request made)
    and the loop goes on with the next value, in both variants. *)
Theorem dropped_events `{Runtime} (event : events_Message) (cfg : Config)
    (rest : list Ready) (w : World) :
  Type_ event ≠ events_ContainerEventType ∨ classify (Action event) cfg = SevNone →
  selectStep (Main.handleEvent (Main.populateActionMaps cfg Main.init))
    (RecvMsg event) cfg w = (Running, w)
  ∧ selectStep Part000.handleEvent (RecvMsg event) cfg w = (Running, w)
  ∧ Main.handleDockerEvents (Main.populateActionMaps cfg Main.init)
      (RecvMsg event :: rest) cfg w
    = Main.handleDockerEvents (Main.populateActionMaps cfg Main.init) rest cfg w
  ∧ Part000.handleDockerEvents (RecvMsg event :: rest) cfg w
    = Part000.handleDockerEvents rest cfg w
  ∧ (Type_ event ≠ events_ContainerEventType →
     ∀ handler, selectStep handler (RecvMsg event) cfg w = (Running, w)).
Proof.
  intros Hdrop.
  assert (Hmain : selectStep (Main.handleEvent (Main.populateActionMaps cfg Main.init))
                    (RecvMsg event) cfg w = (Running, w)).
  { destruct Hdrop as [Hty|Hnone]; [by apply selectStep_skip|].
    unfold selectStep. case_decide; [|reflexivity].
    erewrite bind_run; [reflexivity|].
    apply Main_handleEvent_none.
    by rewrite Main_getEventLevel_classify, Hnone. }
  assert (Hpart : selectStep Part000.handleEvent (RecvMsg event) cfg w = (Running, w)).
  { destruct Hdrop as [Hty|Hnone]; [by apply selectStep_skip|].
    unfold selectStep. case_decide; [|reflexivity].
    erewrite bind_run; [reflexivity|].
    apply Part000_handleEvent_none.
    by rewrite Part000_getEventLevel_classify, Hnone. }
  split; [exact Hmain|]. split; [exact Hpart|].
  unfold Main.handleDockerEvents, Part000.handleDockerEvents.
  rewrite !selectLoop_cons, Hmain, Hpart.
  repeat split. intros Hty handler. by apply selectStep_skip.
Qed.

Lemma dropped_events_witness :
  let rt := sampleRuntime (inl (mkResponse 204 None)) in
  Main.getEventLevel (Main.populateActionMaps defaultConfig Main.init)
    (Action (sampleEvent "network")) = "error"
  ∧ @Main.handleDockerEvents rt (Main.populateActionMaps defaultConfig Main.init)
      [RecvMsg (sampleEvent "network")] defaultConfig (quietWorld ∅)
    = (Running, quietWorld ∅).
Proof.
  split; [reflexivity|].
  apply (@dropped_events (sampleRuntime (inl (mkResponse 204 None)))
           (sampleEvent "network") defaultConfig [] (quietWorld ∅)).
  left. discriminate.
Defined.

(** The same event with the type "container" is delivered. *)
Example container_die_is_delivered :
  effects_of (@Main.handleDockerEvents (sampleRuntime (inl (mkResponse 204 None)))
                (Main.populateActionMaps defaultConfig Main.init)
                [RecvMsg (sampleEvent "container")]
                (mkConfig "http://h/" ["die"] ["stop"] ["start"]))
    (quietWorld ∅)
  = [Log "Event: action=die, level=error";
     HttpPost "http://h/" "application/json"
       ("**Container**: `web-1`" +:+ nl +:+ "**Action**: `die`" +:+ nl
        +:+ "**At**: <t:1700000000:F> (<t:1700000000:R>)");
     Log "Successfully sent Discord notification"; BodyClose].
Proof. vm_compute. reflexivity. Qed.

(** C8.  A signal received in the [select] (either of the two registered
    ones) makes the loop log it and return, stopped, without looking at
    anything that would arrive later.  A received event and a value
    received from the error channel always leave the loop running, so the
    loop stops exactly when a signal is among the values it receives.
    This holds for any handler, hence for both variants. *)
Theorem signal_stops_loop `{Runtime} (handler : events_Message → Config → IO unit)
    (cfg : Config) (w : World) :
  (∀ sig rest,
     selectLoop handler (RecvSig sig :: rest) cfg w
     = (Stopped,
        appended w [Log ("Received signal " +:+ signal_String sig +:+ ", shutting down")]))
  ∧ (∀ event, fst (selectStep handler (RecvMsg event) cfg w) = Running)
  ∧ (∀ err, fst (selectStep handler (RecvErr err) cfg w) = Running)
  ∧ (∀ rs, fst (selectLoop handler rs cfg w) = Stopped ↔ ∃ sig, RecvSig sig ∈ rs)
  ∧ (∀ g rs, Main.handleDockerEvents g rs cfg = selectLoop (Main.handleEvent g) rs cfg)
  ∧ (∀ rs, Part000.handleDockerEvents rs cfg = selectLoop Part000.handleEvent rs cfg).
Proof.
  split.
  { intros sig rest. by rewrite selectLoop_cons, selectStep_sig. }
  split; [intros; apply selectStep_msg_running|].
  split; [intros; apply selectStep_err_running|].
  split; [intros; apply selectLoop_stopped_iff|].
  split; reflexivity.
Qed.

(** An error report, a network event, then SIGTERM: the loop stops at the
    signal and the container event behind it is never handled. *)
Example loop_until_signal :
  @Part000.handleDockerEvents (sampleRuntime (inl (mkResponse 204 None)))
    [RecvErr (Some "EOF"); RecvErr None; RecvMsg (sampleEvent "network");
     RecvSig SIGTERM; RecvMsg (sampleEvent "container")]
    defaultConfig (quietWorld ∅)
  = (Stopped,
     appended (quietWorld ∅)
       [Log "Error receiving Docker event: EOF";
        Log "Received signal terminated, shutting down"]).
Proof. vm_compute. reflexivity. Qed.

(** * Further properties *)

(** ** The lookup maps *)

Lemma lookup_setAll (xs : list string) (m : gmap string bool) (k : string) :
  Main.setAll xs m !! k = if bool_decide (k ∈ xs) then Some true else m !! k.
Proof.
  unfold Main.setAll. revert m.
  induction xs as [|a rest IH]; intros m; cbn [foldl].
  - by rewrite bool_decide_eq_false_2 by apply not_elem_of_nil.
  - rewrite IH, bool_decide_elem_of_cons.
    destruct (decide (k = a)) as [->|Hne].
    + rewrite (bool_decide_eq_true_2 (a = a)) by reflexivity.
      rewrite lookup_insert_eq. by destruct (bool_decide (a ∈ rest)).
    + rewrite (bool_decide_eq_false_2 (k = a)) by exact Hne.
      by rewrite lookup_insert_ne by congruence.
Qed.

Lemma setAll_setAll (xs : list string) (m : gmap string bool) :
  Main.setAll xs (Main.setAll xs m) = Main.setAll xs m.
Proof.
  apply map_eq. intros k. rewrite !lookup_setAll.
  by destruct (bool_decide (k ∈ xs)).
Qed.

Lemma bool_decide_elem_of_app (k : string) (xs ys : list string) :
  bool_decide (k ∈ xs ++ ys) = bool_decide (k ∈ xs) || bool_decide (k ∈ ys).
Proof.
  induction xs as [|a rest IH].
  - by rewrite (bool_decide_eq_false_2 (k ∈ [])) by apply not_elem_of_nil.
  - rewrite <- app_comm_cons, !bool_decide_elem_of_cons, IH. by rewrite orb_assoc.
Qed.

(** X1.  [populateActionMaps] only ever adds: run for one configuration
    and then for another, on the maps of [init], it leaves maps that
    classify like the two configurations with their lists joined.  The
    entries of the first configuration are not forgotten. *)
Theorem populateActionMaps_twice (cfg1 cfg2 : Config) (action : string) :
  Main.getEventLevel
    (Main.populateActionMaps cfg2 (Main.populateActionMaps cfg1 Main.init)) action
  = level_of (classify action
                {| Webhook := Webhook cfg2;
                   Error := Error cfg1 ++ Error cfg2;
                   Warning := Warning cfg1 ++ Warning cfg2;
                   Info := Info cfg1 ++ Info cfg2 |}).
Proof.
  unfold Main.getEventLevel, classify. cbn [Main.populateActionMaps
    Main.errorActions Main.warnActions Main.infoActions Main.init
    Error Warning Info].
  rewrite !index_setAll, !index_empty, !orb_false_r, !bool_decide_elem_of_app.
  destruct (bool_decide (action ∈ Error cfg1)), (bool_decide (action ∈ Error cfg2)),
    (bool_decide (action ∈ Warning cfg1)), (bool_decide (action ∈ Warning cfg2)),
    (bool_decide (action ∈ Info cfg1)), (bool_decide (action ∈ Info cfg2));
    reflexivity.
Qed.

(** X2.  Running [populateActionMaps] again for the same configuration
    changes nothing, whatever the maps held before. *)
Theorem populateActionMaps_idempotent (cfg : Config) (g : Main.Globals) :
  Main.populateActionMaps cfg (Main.populateActionMaps cfg g)
  = Main.populateActionMaps cfg g.
Proof.
  unfold Main.populateActionMaps. cbn [Main.errorActions Main.warnActions
    Main.infoActions].
  by rewrite !setAll_setAll.
Qed.

(** X3.  After startup each lookup map holds exactly the actions of its
    list, each with the value [true]: an action outside the list has no
    entry, and no entry is [false]. *)
Theorem populateActionMaps_entries (cfg : Config) (k : string) :
  let g := Main.populateActionMaps cfg Main.init in
  Main.errorActions g !! k = (if bool_decide (k ∈ Error cfg) then Some true else None)
  ∧ Main.warnActions g !! k = (if bool_decide (k ∈ Warning cfg) then Some true else None)
  ∧ Main.infoActions g !! k = (if bool_decide (k ∈ Info cfg) then Some true else None).
Proof.
  cbn [Main.populateActionMaps Main.errorActions Main.warnActions
    Main.infoActions Main.init].
  rewrite !lookup_setAll, !lookup_empty. done.
Qed.

(** X4.  Only membership counts: two configurations whose lists have the
    same members, in whatever order and however often repeated, classify
    every action alike, in both variants. *)
Theorem getEventLevel_same_members (cfg1 cfg2 : Config) (action : string) :
  (∀ x, x ∈ Error cfg1 ↔ x ∈ Error cfg2) →
  (∀ x, x ∈ Warning cfg1 ↔ x ∈ Warning cfg2) →
  (∀ x, x ∈ Info cfg1 ↔ x ∈ Info cfg2) →
  Part000.getEventLevel action cfg1 = Part000.getEventLevel action cfg2
  ∧ Main.getEventLevel (Main.populateActionMaps cfg1 Main.init) action
    = Main.getEventLevel (Main.populateActionMaps cfg2 Main.init) action.
Proof.
  intros He Hw Hi.
  rewrite !Part000_getEventLevel_classify, !Main_getEventLevel_classify.
  unfold classify.
  rewrite (bool_decide_ext _ _ (He action)), (bool_decide_ext _ _ (Hw action)),
    (bool_decide_ext _ _ (Hi action)).
  done.
Qed.

Lemma getEventLevel_same_members_witness :
  let cfg1 := mkConfig "a" ["die"; "kill"; "die"] ["stop"] [] in
  let cfg2 := mkConfig "b" ["kill"; "die"] ["stop"; "stop"] [] in
  Part000.getEventLevel "kill" cfg1 = Part000.getEventLevel "kill" cfg2
  ∧ Main.getEventLevel (Main.populateActionMaps cfg1 Main.init) "kill"
    = Main.getEventLevel (Main.populateActionMaps cfg2 Main.init) "kill".
Proof.
  apply (getEventLevel_same_members
           (mkConfig "a" ["die"; "kill"; "die"] ["stop"] [])
           (mkConfig "b" ["kill"; "die"] ["stop"; "stop"] []) "kill").
  - intros x. cbn [Error]. rewrite !elem_of_cons, !elem_of_nil. tauto.
  - intros x. cbn [Warning]. rewrite !elem_of_cons, !elem_of_nil. tauto.
  - intros x. reflexivity.
Defined.

(** X5.  The colour that goes with a classified action, in both variants:
    red when the action is in the error list, yellow when it is in the
    warning list and not in the error list, green otherwise. *)
Theorem getColor_of_getEventLevel (action : string) (cfg : Config) :
  getColor (Part000.getEventLevel action cfg)
  = (if bool_decide (action ∈ Error cfg) then 16711680
     else if bool_decide (action ∈ Warning cfg) then 16776960
     else 3066993)
  ∧ getColor (Main.getEventLevel (Main.populateActionMaps cfg Main.init) action)
    = getColor (Part000.getEventLevel action cfg).
Proof.
  rewrite Main_getEventLevel_classify, Part000_getEventLevel_classify.
  split; [|reflexivity].
  unfold classify. by repeat case_bool_decide.
Qed.

(** ** One call of [notifyDiscord] *)

Lemma posts_app (es1 es2 : list Effect) :
  posts (es1 ++ es2) = (posts es1 + posts es2)%nat.
Proof. unfold posts. by rewrite List.filter_app, length_app. Qed.

Lemma closes_app (es1 es2 : list Effect) :
  closes (es1 ++ es2) = (closes es1 + closes es2)%nat.
Proof. unfold closes. by rewrite List.filter_app, length_app. Qed.

Lemma one_delivery_log (url line : string) : one_delivery url [Log line].
Proof.
  unfold one_delivery, posts, closes. simpl.
  split; [by repeat constructor|]. repeat split; lia.
Qed.

Lemma one_delivery_nil (url : string) : one_delivery url [].
Proof.
  unfold one_delivery, posts, closes. simpl.
  split; [constructor|]. repeat split; lia.
Qed.

Lemma one_delivery_log_cons (url line : string) (es : list Effect) :
  one_delivery url es → one_delivery url (Log line :: es).
Proof.
  unfold one_delivery, posts, closes. simpl.
  intros (Hto & Hone & Hclose & Hoff). split; [by constructor|]. done.
Qed.

Lemma notifyDiscord_frame `{Runtime} (avatar : string) (event : events_Message)
    (level webhookURL : string) (w : World) :
  ∃ es, notifyDiscordWith avatar event level webhookURL w = (tt, appended w es)
        ∧ one_delivery webhookURL es.
Proof.
  destruct (json_Marshal (payload avatar event level)) as [payloadBytes|err] eqn:Hm.
  - destruct (decide (webhookURL = "")) as [->|Hurl].
    + eexists. split; [by apply notifyDiscord_offline_run with payloadBytes|].
      apply one_delivery_log.
    + rewrite (notifyDiscord_post_run avatar event level webhookURL payloadBytes w Hm Hurl).
      destruct (http_transport _ _ _ _) as [resp|err].
      * rewrite afterResponse_run, appended_appended. eexists. split; [reflexivity|].
        unfold one_delivery, posts, closes.
        destruct (Body_Close resp); simpl;
          (split; [by repeat constructor|]); repeat split; try lia; done.
      * eexists. split; [reflexivity|].
        unfold one_delivery, posts, closes. simpl.
        split; [by repeat constructor|]. repeat split; try lia; done.
  - unfold notifyDiscordWith. rewrite Hm. eexists. split; [reflexivity|].
    apply one_delivery_log.
Qed.

(** X6.  Whatever the event, the level, the URL and the answers of the
    environment, one call of [notifyDiscord] leaves the files alone and
    calls [http.Post] at most once, with the given webhook URL and the
    content type application/json as arguments; it calls [Close] on a
    response body at most once, and never without having called
    [http.Post]. *)
Theorem notifyDiscord_at_most_once `{Runtime} (avatar : string)
    (event : events_Message) (level webhookURL : string) (w : World) :
  let w' := snd (notifyDiscordWith avatar event level webhookURL w) in
  let es := effects_of (notifyDiscordWith avatar event level webhookURL) w in
  w_files w' = w_files w
  ∧ w_out w' = w_out w ++ es
  ∧ Forall (post_to webhookURL) es
  ∧ (posts es ≤ 1)%nat
  ∧ (closes es ≤ posts es)%nat.
Proof.
  destruct (notifyDiscord_frame avatar event level webhookURL w)
    as (es & Hrun & Hto & Hone & Hclose & _).
  cbv zeta. rewrite (effects_of_appended _ _ _ _ Hrun), Hrun. done.
Qed.

(** X7.  When [http.Post] returns an error, [notifyDiscord] has called
    it once; it logs the failure to send with the error and returns: it
    does not call [http.Post] again and closes no body. *)
Theorem notifyDiscord_transport_error `{Runtime} (avatar : string)
    (event : events_Message) (level webhookURL payloadBytes : string)
    (err : error) (w : World) :
  json_Marshal (payload avatar event level) = inl payloadBytes →
  webhookURL ≠ "" →
  http_transport (w_out w) webhookURL "application/json" payloadBytes = inr err →
  notifyDiscordWith avatar event level webhookURL w
  = (tt, appended w [HttpPost webhookURL "application/json" payloadBytes;
                     Log ("Failed to send webhook: " +:+ err)]).
Proof.
  intros Hm Hurl Herr.
  rewrite (notifyDiscord_post_run avatar event level webhookURL payloadBytes w Hm Hurl).
  by rewrite Herr.
Qed.

Lemma notifyDiscord_transport_error_witness :
  let body := "**Container**: `web-1`" +:+ nl +:+ "**Action**: `die`" +:+ nl
              +:+ "**At**: <t:1700000000:F> (<t:1700000000:R>)" in
  @notifyDiscordWith (sampleRuntime (inr "connection refused")) Part000.avatar
    (sampleEvent "container") "error" "http://h/" (quietWorld ∅)
  = (tt, appended (quietWorld ∅)
           [HttpPost "http://h/" "application/json" body;
            Log "Failed to send webhook: connection refused"]).
Proof.
  exact (@notifyDiscord_transport_error (sampleRuntime (inr "connection refused"))
           Part000.avatar (sampleEvent "container") "error" "http://h/" _
           "connection refused" (quietWorld ∅) eq_refl ltac:(discriminate) eq_refl).
Defined.

(** X9.  An event whose actor has no "name" attribute is rendered like
    one whose name is the empty string: the lookup in the attribute map
    does not fail, the description just has nothing between the
    backquotes. *)
Theorem payload_missing_name (avatar : string) (event : events_Message)
    (level : string) :
  Attributes (Actor event) !! "name" = None →
  payload avatar event level
  = payload avatar
      {| Type_ := Type_ event; Action := Action event;
         Actor := {| Attributes := <["name" := ""]> (Attributes (Actor event)) |};
         Time := Time event |} level
  ∧ strings_Contains
      (default "" (e_description <$> head (p_embeds (payload avatar event level))))
      ("**Container**: ``" +:+ nl).
Proof.
  intros Hnone. unfold payload, attr, formattedTimeF, formattedTimeR.
  cbn [Attributes Actor Action Time]. rewrite Hnone, lookup_insert_eq.
  split; [reflexivity|]. cbn [p_embeds head fmap option_fmap option_map default e_description].
  exists "", ("**Action**: `" +:+ Action event
              +:+ "`" +:+ nl +:+ "**At**: " +:+ ("<t:" +:+ fmt_d (Time event) +:+ ":F>")
              +:+ " (" +:+ ("<t:" +:+ fmt_d (Time event) +:+ ":R>") +:+ ")").
  reflexivity.
Qed.

Lemma payload_missing_name_witness :
  let event := mkMessage "container" "die" (mkActor ∅) 0 in
  strings_Contains
    (default "" (e_description <$> head (p_embeds (payload Main.avatar event "error"))))
    ("**Container**: ``" +:+ nl).
Proof.
  apply (payload_missing_name Main.avatar (mkMessage "container" "die" (mkActor ∅) 0)
           "error").
  reflexivity.
Defined.

(** ** Whole runs of the loop *)

Lemma Part000_handleEvent_frame `{Runtime} (event : events_Message)
    (cfg : Config) (w : World) :
  ∃ es, Part000.handleEvent event cfg w = (tt, appended w es)
        ∧ one_delivery (Webhook cfg) es
        ∧ (classify (Action event) cfg = SevNone → es = []).
Proof.
  unfold Part000.handleEvent. rewrite Part000_getEventLevel_classify.
  destruct (classify (Action event) cfg) eqn:Hsev; cbn [level_of];
    try (rewrite decide_False by discriminate;
         unfold log_Printf; rewrite (bind_run _ _ w _ tt (emit_run _ _));
         match goal with
         | |- context [Part000.notifyDiscord ?e ?l ?u ?w'] =>
             destruct (notifyDiscord_frame Part000.avatar e l u w')
               as (es & Hrun & Hone)
         end;
         unfold Part000.notifyDiscord; rewrite Hrun, appended_appended;
         eexists; split; [reflexivity|];
         split; [by apply one_delivery_log_cons|discriminate]).
  exists []. rewrite appended_nil. repeat split; auto using one_delivery_nil.
Qed.

Lemma Main_handleEvent_frame `{Runtime} (event : events_Message)
    (cfg : Config) (w : World) :
  ∃ es, Main.handleEvent (Main.populateActionMaps cfg Main.init) event cfg w
        = (tt, appended w es)
        ∧ one_delivery (Webhook cfg) es
        ∧ (classify (Action event) cfg = SevNone → es = []).
Proof.
  unfold Main.handleEvent. rewrite Main_getEventLevel_classify.
  destruct (classify (Action event) cfg) eqn:Hsev; cbn [level_of];
    try (rewrite decide_False by discriminate;
         unfold log_Printf; rewrite (bind_run _ _ w _ tt (emit_run _ _));
         match goal with
         | |- context [Main.notifyDiscord ?e ?l ?u ?w'] =>
             destruct (notifyDiscord_frame Main.avatar e l u w')
               as (es & Hrun & Hone)
         end;
         unfold Main.notifyDiscord; rewrite Hrun, appended_appended;
         eexists; split; [reflexivity|];
         split; [by apply one_delivery_log_cons|discriminate]).
  exists []. rewrite appended_nil. repeat split; auto using one_delivery_nil.
Qed.

Section LoopFrame.
Context `{Runtime}.
Variable handler : events_Message → Config → IO unit.
Variable cfg : Config.
Hypothesis handler_frame : ∀ event w,
  ∃ es, handler event cfg w = (tt, appended w es)
        ∧ one_delivery (Webhook cfg) es
        ∧ (classify (Action event) cfg = SevNone → es = []).

Lemma selectStep_frame (r : Ready) (w : World) :
  ∃ st es, selectStep handler r cfg w = (st, appended w es)
           ∧ Forall (post_to (Webhook cfg)) es
           ∧ (posts es ≤ if notifiable cfg r then 1 else 0)%nat
           ∧ (closes es ≤ posts es)%nat
           ∧ (Webhook cfg = "" → posts es = 0%nat).
Proof.
  destruct r as [event|err|sig].
  - unfold selectStep, notifiable. case_decide as Hty.
    + destruct (handler_frame event w) as (es & Hrun & (Hto & Hone & Hclose & Hoff) & Hnone).
      rewrite (bind_run _ _ w _ tt Hrun).
      exists Running, es. split; [reflexivity|].
      rewrite bool_decide_eq_true_2 by exact Hty. cbn [andb].
      repeat split; try done.
      destruct (classify (Action event) cfg); try done.
      by rewrite Hnone.
    + exists Running, []. rewrite appended_nil. split; [reflexivity|].
      rewrite bool_decide_eq_false_2 by exact Hty.
      destruct (one_delivery_nil (Webhook cfg)) as (? & ? & ? & ?).
      repeat split; try done; try (unfold posts; simpl; lia).
  - exists Running. destruct err as [e|].
    + eexists. split; [reflexivity|].
      destruct (one_delivery_log (Webhook cfg) ("Error receiving Docker event: " +:+ e))
        as (? & ? & ? & ?).
      repeat split; try done; try (unfold posts; simpl; lia).
    + exists []. rewrite appended_nil. split; [reflexivity|].
      destruct (one_delivery_nil (Webhook cfg)) as (? & ? & ? & ?).
      repeat split; try done; try (unfold posts; simpl; lia).
  - exists Stopped. eexists. split; [apply selectStep_sig|].
    destruct (one_delivery_log (Webhook cfg)
                ("Received signal " +:+ signal_String sig +:+ ", shutting down"))
      as (? & ? & ? & ?).
    repeat split; try done; try (unfold posts; simpl; lia).
Qed.

Lemma selectStep_sig_inv (r : Ready) (w : World) :
  fst (selectStep handler r cfg w) = Stopped → ∃ sig, r = RecvSig sig.
Proof.
  destruct r as [event|err|sig]; [| |by eauto].
  - by rewrite selectStep_msg_running.
  - by rewrite selectStep_err_running.
Qed.

Lemma selectLoop_frame (rs : list Ready) (w : World) :
  ∃ st es, selectLoop handler rs cfg w = (st, appended w es)
           ∧ Forall (post_to (Webhook cfg)) es
           ∧ (posts es ≤ length (List.filter (notifiable cfg) (before_signal rs)))%nat
           ∧ (closes es ≤ posts es)%nat
           ∧ (Webhook cfg = "" → posts es = 0%nat).
Proof.
  revert w. induction rs as [|r rest IH]; intros w.
  - exists Running, []. rewrite appended_nil. split; [reflexivity|].
    destruct (one_delivery_nil (Webhook cfg)) as (? & ? & ? & ?).
    repeat split; try done.
  - rewrite selectLoop_cons.
    destruct (selectStep_frame r w) as (st & es1 & Hstep & Hto1 & Hp1 & Hc1 & Hoff1).
    pose proof (selectStep_sig_inv r w) as Hsig.
    rewrite Hstep in *. destruct st.
    + destruct (IH (appended w es1)) as (st2 & es2 & Hloop & Hto2 & Hp2 & Hc2 & Hoff2).
      rewrite Hloop, appended_appended. exists st2, (es1 ++ es2).
      split; [reflexivity|].
      rewrite posts_app, closes_app.
      split; [by apply Forall_app|].
      assert (Hbefore : before_signal (r :: rest) = r :: before_signal rest).
      { destruct r as [event|err|sig]; try reflexivity.
        rewrite selectStep_sig in Hstep. discriminate. }
      rewrite Hbefore. cbn [List.filter].
      repeat split.
      * destruct (notifiable cfg r); cbn [length]; lia.
      * lia.
      * intros Hurl. rewrite (Hoff1 Hurl), (Hoff2 Hurl). reflexivity.
    + destruct (Hsig eq_refl) as [sig ->].
      exists Stopped, es1. split; [reflexivity|].
      assert (Hp0 : posts es1 = 0%nat).
      { rewrite selectStep_sig in Hstep. injection Hstep as Hes.
        apply app_inv_head in Hes. by subst es1. }
      repeat split; try done; lia.
Qed.
End LoopFrame.

(** X10.  A run of the loop over any received values, in both variants,
    leaves the files and the refusals of the operating system as they
    were and only adds to the trace; every call of [http.Post] it makes
    is given the webhook of the configuration and the content type
    application/json; and it never calls [Close] on a body more often
    than it called [http.Post]. *)
Theorem handleDockerEvents_frame `{Runtime} (rs : list Ready) (cfg : Config)
    (w : World) :
  (∃ es,
     snd (Main.handleDockerEvents (Main.populateActionMaps cfg Main.init) rs cfg w)
     = appended w es
     ∧ Forall (post_to (Webhook cfg)) es
     ∧ (closes es ≤ posts es)%nat)
  ∧ (∃ es,
       snd (Part000.handleDockerEvents rs cfg w) = appended w es
       ∧ Forall (post_to (Webhook cfg)) es
       ∧ (closes es ≤ posts es)%nat).
Proof.
  split.
  - destruct (selectLoop_frame
                (Main.handleEvent (Main.populateActionMaps cfg Main.init))
                cfg (fun event w0 => Main_handleEvent_frame event cfg w0) rs w)
      as (st & es & Hrun & Hto & _ & Hclose & _).
    exists es. unfold Main.handleDockerEvents. by rewrite Hrun.
  - destruct (selectLoop_frame Part000.handleEvent cfg
                (fun event w0 => Part000_handleEvent_frame event cfg w0) rs w)
      as (st & es & Hrun & Hto & _ & Hclose & _).
    exists es. unfold Part000.handleDockerEvents. by rewrite Hrun.
Qed.

(** X11.  No retry by the program and nothing after the signal: in both
    variants the number of calls of [http.Post] in a run is at most the
    number of container events with a configured action that were
    received before the first signal. *)
Theorem handleDockerEvents_posts_bound `{Runtime} (rs : list Ready)
    (cfg : Config) (w : World) :
  (posts (effects_of (Main.handleDockerEvents (Main.populateActionMaps cfg Main.init)
                        rs cfg) w)
   ≤ length (List.filter (notifiable cfg) (before_signal rs)))%nat
  ∧ (posts (effects_of (Part000.handleDockerEvents rs cfg) w)
     ≤ length (List.filter (notifiable cfg) (before_signal rs)))%nat.
Proof.
  split.
  - destruct (selectLoop_frame
                (Main.handleEvent (Main.populateActionMaps cfg Main.init))
                cfg (fun event w0 => Main_handleEvent_frame event cfg w0) rs w)
      as (st & es & Hrun & _ & Hposts & _).
    unfold Main.handleDockerEvents. by rewrite (effects_of_appended _ _ _ _ Hrun).
  - destruct (selectLoop_frame Part000.handleEvent cfg
                (fun event w0 => Part000_handleEvent_frame event cfg w0) rs w)
      as (st & es & Hrun & _ & Hposts & _).
    unfold Part000.handleDockerEvents. by rewrite (effects_of_appended _ _ _ _ Hrun).
Qed.

(** X12.  With an empty webhook in the configuration the loop never makes
    an HTTP request, whatever it receives and whatever the encoder does,
    in both variants. *)
Theorem handleDockerEvents_offline `{Runtime} (rs : list Ready) (cfg : Config)
    (w : World) :
  Webhook cfg = "" →
  posts (effects_of (Main.handleDockerEvents (Main.populateActionMaps cfg Main.init)
                       rs cfg) w) = 0%nat
  ∧ posts (effects_of (Part000.handleDockerEvents rs cfg) w) = 0%nat.
Proof.
  intros Hurl. split.
  - destruct (selectLoop_frame
                (Main.handleEvent (Main.populateActionMaps cfg Main.init))
                cfg (fun event w0 => Main_handleEvent_frame event cfg w0) rs w)
      as (st & es & Hrun & _ & _ & _ & Hoff).
    unfold Main.handleDockerEvents. rewrite (effects_of_appended _ _ _ _ Hrun). auto.
  - destruct (selectLoop_frame Part000.handleEvent cfg
                (fun event w0 => Part000_handleEvent_frame event cfg w0) rs w)
      as (st & es & Hrun & _ & _ & _ & Hoff).
    unfold Part000.handleDockerEvents. rewrite (effects_of_appended _ _ _ _ Hrun). auto.
Qed.

Lemma handleDockerEvents_offline_witness :
  let cfg := mkConfig "" ["die"] ["stop"] ["start"] in
  effects_of (@Part000.handleDockerEvents (sampleRuntime (inl (mkResponse 204 None)))
                [RecvMsg (sampleEvent "container")] cfg) (quietWorld ∅)
  = [Log "Event: action=die, level=error";
     Log "Missing Discord webhook URL in config"]
  ∧ posts (effects_of (@Part000.handleDockerEvents
                         (sampleRuntime (inl (mkResponse 204 None)))
                         [RecvMsg (sampleEvent "container")] cfg) (quietWorld ∅))
    = 0%nat.
Proof.
  split; [reflexivity|].
  apply (@handleDockerEvents_offline (sampleRuntime (inl (mkResponse 204 None)))
           [RecvMsg (sampleEvent "container")]
           (mkConfig "" ["die"] ["stop"] ["start"]) (quietWorld ∅)).
  reflexivity.
Defined.

Lemma notifyDiscord_posts_one `{Runtime} (avatar : string)
    (event : events_Message) (level webhookURL : string) (w : World) :
  (∀ p, ∃ payloadBytes, json_Marshal p = inl payloadBytes) →
  webhookURL ≠ "" →
  posts (effects_of (notifyDiscordWith avatar event level webhookURL) w) = 1%nat.
Proof.
  intros Htotal Hurl.
  destruct (Htotal (payload avatar event level)) as [payloadBytes Hm].
  pose proof (notifyDiscord_post_run avatar event level webhookURL payloadBytes w Hm Hurl)
    as Hrun.
  destruct (http_transport _ _ _ _) as [resp|err].
  - rewrite afterResponse_run, appended_appended in Hrun.
    rewrite (effects_of_appended _ _ _ _ Hrun).
    by destruct (Body_Close resp).
  - by rewrite (effects_of_appended _ _ _ _ Hrun).
Qed.

Section LoopExact.
Context `{Runtime}.
Variable handler : events_Message → Config → IO unit.
Variable cfg : Config.
Hypothesis handler_frame : ∀ event w,
  ∃ es, handler event cfg w = (tt, appended w es)
        ∧ one_delivery (Webhook cfg) es
        ∧ (classify (Action event) cfg = SevNone → es = []).
Hypothesis handler_exact : ∀ event w,
  classify (Action event) cfg ≠ SevNone →
  posts (effects_of (handler event cfg) w) = 1%nat.

Lemma selectLoop_posts_exact (rs : list Ready) (w : World) :
  posts (effects_of (selectLoop handler rs cfg) w)
  = length (List.filter (notifiable cfg) (before_signal rs)).
Proof.
  revert w. induction rs as [|r rest IH]; intros w.
  - unfold effects_of. cbn. by rewrite drop_all.
  - destruct r as [event|err|sig].
    + cbn [before_signal List.filter notifiable].
      destruct (decide (Type_ event = events_ContainerEventType)) as [Hty|Hty].
      * rewrite bool_decide_eq_true_2 by exact Hty. cbn [andb].
        destruct (handler_frame event w) as (es1 & Hrun1 & _ & Hnone).
        destruct (selectLoop_frame handler cfg handler_frame rest (appended w es1))
          as (st & es2 & Hrun2 & _).
        assert (Hall : selectLoop handler (RecvMsg event :: rest) cfg w
                       = (st, appended w (es1 ++ es2))).
        { rewrite selectLoop_cons. unfold selectStep.
          rewrite decide_True by exact Hty.
          rewrite (bind_run _ _ w _ tt Hrun1). cbn.
          by rewrite Hrun2, appended_appended. }
        rewrite (effects_of_appended _ _ _ _ Hall), posts_app.
        rewrite <- (effects_of_appended _ _ _ _ Hrun2), IH.
        destruct (classify (Action event) cfg) eqn:Hsev;
          try (rewrite <- (effects_of_appended _ _ _ _ Hrun1),
                 handler_exact by (rewrite Hsev; discriminate);
               reflexivity).
        by rewrite (Hnone eq_refl).
      * rewrite bool_decide_eq_false_2 by exact Hty. cbn [andb].
        rewrite <- (IH w). unfold effects_of.
        by rewrite selectLoop_cons, selectStep_skip.
    + cbn [before_signal List.filter notifiable].
      destruct (selectLoop_frame handler cfg handler_frame rest
                  (appended w match err with
                              | Some e => [Log ("Error receiving Docker event: " +:+ e)]
                              | None => []
                              end))
        as (st & es2 & Hrun2 & _).
      assert (Hall : selectLoop handler (RecvErr err :: rest) cfg w
                     = (st, appended w (match err with
                                        | Some e => [Log ("Error receiving Docker event: " +:+ e)]
                                        | None => []
                                        end ++ es2))).
      { rewrite selectLoop_cons. rewrite <- appended_appended, <- Hrun2.
        destruct err; [reflexivity|]. cbn. by rewrite appended_nil. }
      rewrite (effects_of_appended _ _ _ _ Hall), posts_app.
      rewrite <- (effects_of_appended _ _ _ _ Hrun2), IH.
      by destruct err.
    + cbn [before_signal List.filter length].
      assert (Hall : selectLoop handler (RecvSig sig :: rest) cfg w
                     = (Stopped, appended w
                          [Log ("Received signal " +:+ signal_String sig
                                +:+ ", shutting down")])).
      { by rewrite selectLoop_cons, selectStep_sig. }
      by rewrite (effects_of_appended _ _ _ _ Hall).
Qed.
End LoopExact.

(** X13.  When the webhook is set and the encoder accepts every payload,
    a run calls [http.Post] exactly once for each container event with a
    configured action received before the first signal, no more and no
    fewer, whatever [http.Post] returns; in both variants. *)
Theorem handleDockerEvents_posts_exact `{Runtime} (rs : list Ready)
    (cfg : Config) (w : World) :
  (∀ p, ∃ payloadBytes, json_Marshal p = inl payloadBytes) →
  Webhook cfg ≠ "" →
  posts (effects_of (Main.handleDockerEvents (Main.populateActionMaps cfg Main.init)
                       rs cfg) w)
  = length (List.filter (notifiable cfg) (before_signal rs))
  ∧ posts (effects_of (Part000.handleDockerEvents rs cfg) w)
    = length (List.filter (notifiable cfg) (before_signal rs)).
Proof.
  intros Htotal Hurl. split.
  - apply (selectLoop_posts_exact
             (Main.handleEvent (Main.populateActionMaps cfg Main.init)) cfg
             (fun event w0 => Main_handleEvent_frame event cfg w0)).
    intros event w0 Hsev.
    assert (Hrun : Main.handleEvent (Main.populateActionMaps cfg Main.init) event cfg w0
                   = Main.notifyDiscord event (level_of (classify (Action event) cfg))
                       (Webhook cfg)
                       (appended w0
                          [Log ("Event: action=" +:+ Action event +:+ ", level="
                                +:+ level_of (classify (Action event) cfg))])).
    { unfold Main.handleEvent. rewrite Main_getEventLevel_classify.
      rewrite decide_False by (by destruct (classify (Action event) cfg)).
      reflexivity. }
    destruct (notifyDiscord_frame Main.avatar event
                (level_of (classify (Action event) cfg)) (Webhook cfg)
                (appended w0
                   [Log ("Event: action=" +:+ Action event +:+ ", level="
                         +:+ level_of (classify (Action event) cfg))]))
      as (es & Hes & _).
    pose proof (notifyDiscord_posts_one Main.avatar event
                  (level_of (classify (Action event) cfg)) (Webhook cfg)
                  (appended w0
                     [Log ("Event: action=" +:+ Action event +:+ ", level="
                           +:+ level_of (classify (Action event) cfg))])
                  Htotal Hurl) as Hone.
    rewrite (effects_of_appended _ _ _ _ Hes) in Hone.
    unfold Main.notifyDiscord in Hrun. rewrite Hes, appended_appended in Hrun.
    rewrite (effects_of_appended _ _ _ _ Hrun), posts_app. by rewrite Hone.
  - apply (selectLoop_posts_exact Part000.handleEvent cfg
             (fun event w0 => Part000_handleEvent_frame event cfg w0)).
    intros event w0 Hsev.
    assert (Hrun : Part000.handleEvent event cfg w0
                   = Part000.notifyDiscord event (level_of (classify (Action event) cfg))
                       (Webhook cfg)
                       (appended w0
                          [Log ("Event: action=" +:+ Action event +:+ ", level="
                                +:+ level_of (classify (Action event) cfg))])).
    { unfold Part000.handleEvent. rewrite Part000_getEventLevel_classify.
      rewrite decide_False by (by destruct (classify (Action event) cfg)).
      reflexivity. }
    destruct (notifyDiscord_frame Part000.avatar event
                (level_of (classify (Action event) cfg)) (Webhook cfg)
                (appended w0
                   [Log ("Event: action=" +:+ Action event +:+ ", level="
                         +:+ level_of (classify (Action event) cfg))]))
      as (es & Hes & _).
    pose proof (notifyDiscord_posts_one Part000.avatar event
                  (level_of (classify (Action event) cfg)) (Webhook cfg)
                  (appended w0
                     [Log ("Event: action=" +:+ Action event +:+ ", level="
                           +:+ level_of (classify (Action event) cfg))])
                  Htotal Hurl) as Hone.
    rewrite (effects_of_appended _ _ _ _ Hes) in Hone.
    unfold Part000.notifyDiscord in Hrun. rewrite Hes, appended_appended in Hrun.
    rewrite (effects_of_appended _ _ _ _ Hrun), posts_app. by rewrite Hone.
Qed.

(** Two deaths, a start that is not configured, a network event, a
    signal, and a death that comes too late: two calls. *)
Lemma handleDockerEvents_posts_exact_witness :
  let cfg := mkConfig "http://h/" ["die"] [] [] in
  let start := mkMessage "container" "start" (mkActor ∅) 1 in
  let rs := [RecvMsg (sampleEvent "container"); RecvMsg start;
             RecvMsg (sampleEvent "network"); RecvMsg (sampleEvent "container");
             RecvSig SIGINT; RecvMsg (sampleEvent "container")] in
  posts (effects_of (@Part000.handleDockerEvents
                       (sampleRuntime (inr "connection refused")) rs cfg)
           (quietWorld ∅)) = 2%nat.
Proof.
  apply (@handleDockerEvents_posts_exact (sampleRuntime (inr "connection refused"))
           [RecvMsg (sampleEvent "container");
            RecvMsg (mkMessage "container" "start" (mkActor ∅) 1);
            RecvMsg (sampleEvent "network"); RecvMsg (sampleEvent "container");
            RecvSig SIGINT; RecvMsg (sampleEvent "container")]
           (mkConfig "http://h/" ["die"] [] []) (quietWorld ∅)).
  - intros p. eexists. reflexivity.
  - discriminate.
Defined.

(** X14.  Runs compose: the loop over two batches of received values is
    the loop over the first batch and then, if that has not stopped, the
    loop over the second from the world the first one left; if the first
    has stopped, the second batch is never looked at.  For any handler,
    hence for both variants. *)
Theorem selectLoop_app `{Runtime} (handler : events_Message → Config → IO unit)
    (rs1 rs2 : list Ready) (cfg : Config) (w : World) :
  selectLoop handler (rs1 ++ rs2) cfg w
  = match selectLoop handler rs1 cfg w with
    | (Stopped, w') => (Stopped, w')
    | (Running, w') => selectLoop handler rs2 cfg w'
    end.
Proof.
  revert w. induction rs1 as [|r rest IH]; intros w; [reflexivity|].
  rewrite <- app_comm_cons, !selectLoop_cons.
  destruct (selectStep handler r cfg w) as [[] w']; [apply IH|reflexivity].
Qed.

Lemma selectLoop_idle `{Runtime} (handler : events_Message → Config → IO unit)
    (rs : list Ready) (cfg : Config) (w : World) :
  Forall (fun r => idle r = true) rs →
  selectLoop handler rs cfg w = (Running, w).
Proof.
  induction 1 as [|r rest Hidle _ IH]; [reflexivity|].
  rewrite selectLoop_cons. destruct r as [event|[e|]|sig]; try discriminate.
  - rewrite selectStep_skip; [exact IH|].
    cbn in Hidle. apply negb_true_iff in Hidle. by apply bool_decide_eq_false in Hidle.
  - exact IH.
Qed.

(** X15.  Values that carry nothing leave no trace, however many arrive:
    a run over messages that are not container events (such as the zero
    message a closed channel yields) and nil errors ends running in the
    world it started in, for any handler and in both variants. *)
Theorem handleDockerEvents_idle `{Runtime} (g : Main.Globals) (rs : list Ready)
    (cfg : Config) (w : World) :
  Forall (fun r => idle r = true) rs →
  Main.handleDockerEvents g rs cfg w = (Running, w)
  ∧ Part000.handleDockerEvents rs cfg w = (Running, w)
  ∧ ∀ handler, selectLoop handler rs cfg w = (Running, w).
Proof.
  intros Hidle.
  split; [by apply selectLoop_idle|]. split; [by apply selectLoop_idle|].
  intros handler. by apply selectLoop_idle.
Qed.

Lemma handleDockerEvents_idle_witness :
  let zero := mkMessage "" "" (mkActor ∅) 0 in
  @Main.handleDockerEvents (sampleRuntime (inr "offline"))
    (Main.populateActionMaps defaultConfig Main.init)
    [RecvMsg zero; RecvErr None; RecvMsg zero; RecvMsg (sampleEvent "image")]
    defaultConfig (quietWorld ∅)
  = (Running, quietWorld ∅).
Proof.
  apply (@handleDockerEvents_idle (sampleRuntime (inr "offline"))
           (Main.populateActionMaps defaultConfig Main.init)
           [RecvMsg (mkMessage "" "" (mkActor ∅) 0); RecvErr None;
            RecvMsg (mkMessage "" "" (mkActor ∅) 0); RecvMsg (sampleEvent "image")]
           defaultConfig (quietWorld ∅)).
  repeat constructor.
Defined.

(** ** More on [loadConfig] *)

(** X16.  [loadConfig] never overwrites: when a file is already at the
    path, or when the stat of the path is refused, the world after the
    call is the world before it (no write, no log line), whether the call
    succeeds or fails. *)
Theorem loadConfig_keeps_existing `{Runtime} (filename : string) (w : World) :
  is_Some (w_files w !! filename) ∨ is_Some (w_deny w SysStat filename) →
  snd (loadConfig filename w) = w.
Proof.
  intros Hcase. rewrite loadConfig_run.
  destruct (w_deny w SysStat filename) as [e|]; [reflexivity|].
  destruct Hcase as [[data Hfile]|[e He]]; [|discriminate].
  rewrite Hfile. by destruct (w_deny w SysRead filename).
Qed.

Lemma loadConfig_keeps_existing_witness :
  let w := mkWorld {[ "config.json" := "{" ]}
             (fun s _ => match s with
                         | SysWrite => Some "read-only file system"
                         | _ => None
                         end) [Log "earlier"] in
  snd (@loadConfig (sampleRuntime (inr "offline")) "config.json" w) = w.
Proof.
  apply (@loadConfig_keeps_existing (sampleRuntime (inr "offline")) "config.json").
  left. eexists. reflexivity.
Defined.

(** X17.  Whatever happens, [loadConfig] touches no path but the one it
    is given, changes no refusal, makes no HTTP request and logs at most
    one line. *)
Theorem loadConfig_footprint `{Runtime} (filename : string) (w : World) :
  let w' := snd (loadConfig filename w) in
  (∀ p, p ≠ filename → w_files w' !! p = w_files w !! p)
  ∧ w_deny w' = w_deny w
  ∧ ∃ es, w_out w' = w_out w ++ es ∧ posts es = 0%nat ∧ (length es ≤ 1)%nat.
Proof.
  cbv zeta. rewrite loadConfig_run.
  assert (Hnil : ∃ es, w_out w = w_out w ++ es ∧ posts es = 0%nat ∧ (length es ≤ 1)%nat).
  { exists []. rewrite app_nil_r. repeat split. cbn. lia. }
  assert (Hone : ∃ es,
            w_out w ++ [Log "Config file not found, creating default config.json"]
            = w_out w ++ es ∧ posts es = 0%nat ∧ (length es ≤ 1)%nat).
  { eexists. split; [reflexivity|]. split; [reflexivity|]. cbn. lia. }
  destruct (w_deny w SysStat filename) as [e|]; [done|].
  destruct (w_files w !! filename) as [data|].
  - by destruct (w_deny w SysRead filename).
  - destruct (w_deny w SysWrite filename) as [e|]; cbn [snd appended w_files w_deny w_out];
      [done|].
    split; [|done]. intros p Hp. by rewrite lookup_insert_ne.
Qed.

(** X18.  Second start: if the decoder reads back what the encoder wrote
    for the default configuration, then after a first call that created
    the file, a second call returns the default configuration again and
    changes nothing. *)
Theorem loadConfig_second_run `{Runtime} (filename : string) (w : World) :
  json_Unmarshal (fst (json_MarshalIndent defaultConfig "" "  ")) = inl defaultConfig →
  (∀ s, w_deny w s filename = None) →
  w_files w !! filename = None →
  let w1 := snd (loadConfig filename w) in
  fst (loadConfig filename w) = inl defaultConfig
  ∧ loadConfig filename w1 = (inl defaultConfig, w1).
Proof.
  intros Hround Hok Hnone. cbv zeta.
  rewrite (loadConfig_absent filename w Hok Hnone). cbn [fst snd].
  split; [reflexivity|].
  rewrite (loadConfig_present filename
             (fst (json_MarshalIndent defaultConfig "" "  "))).
  - by rewrite Hround.
  - exact Hok.
  - apply lookup_insert_eq.
Qed.

Lemma loadConfig_second_run_witness :
  let rt := sampleRuntime (inr "offline") in
  let w1 := snd (@loadConfig rt "config.json" (quietWorld ∅)) in
  fst (@loadConfig rt "config.json" (quietWorld ∅)) = inl defaultConfig
  ∧ @loadConfig rt "config.json" w1 = (inl defaultConfig, w1).
Proof.
  exact (@loadConfig_second_run (sampleRuntime (inr "offline")) "config.json"
           (quietWorld ∅) eq_refl (fun _ => eq_refl) eq_refl).
Defined.

(** X19.  [loadConfig] returns a configuration in exactly two situations:
    no file is at the path and the stat and the write are allowed (the
    result is then the default), or a file is there, the stat and the read
    are allowed and the contents decode (the result is then what they
    decode to).  In every other situation it returns an error. *)
Theorem loadConfig_succeeds_iff `{Runtime} (filename : string) (w : World)
    (cfg : Config) :
  fst (loadConfig filename w) = inl cfg
  ↔ w_deny w SysStat filename = None
    ∧ ((w_files w !! filename = None ∧ w_deny w SysWrite filename = None
        ∧ cfg = defaultConfig)
       ∨ (∃ data, w_files w !! filename = Some data
                  ∧ w_deny w SysRead filename = None
                  ∧ json_Unmarshal data = inl cfg)).
Proof.
  rewrite loadConfig_run.
  destruct (w_deny w SysStat filename) as [e|].
  { split; [discriminate|]. by intros [? _]. }
  destruct (w_files w !! filename) as [data|].
  - destruct (w_deny w SysRead filename) as [e|]; cbn [fst].
    + split; [discriminate|]. intros [_ [[? _]|(d & _ & ? & _)]]; discriminate.
    + split.
      * intros Hres. split; [reflexivity|]. right. exists data.
        destruct (json_Unmarshal data); [by injection Hres as ->|discriminate].
      * intros [_ [[? _]|(d & Hd & _ & Hdec)]]; [discriminate|].
        injection Hd as ->. by rewrite Hdec.
  - cbv zeta. destruct (w_deny w SysWrite filename) as [e|]; cbn [fst].
    + split; [discriminate|]. intros [_ [(_ & ? & _)|(d & ? & _)]]; discriminate.
    + split.
      * intros Hres. injection Hres as <-. split; [reflexivity|]. by left.
      * intros [_ [(_ & _ & ->)|(d & ? & _)]]; [reflexivity|discriminate].
Qed.

(** ** Startup *)

Lemma getEventLevel_agree_after_populate (cfg : Config) (action : string) :
  Main.getEventLevel (Main.populateActionMaps cfg Main.init) action
  = Part000.getEventLevel action cfg.
Proof.
  by rewrite Main_getEventLevel_classify, Part000_getEventLevel_classify.
Qed.



(** X21.  Whenever [main] of [main.go] gets as far as starting the loop,
    the Docker client was created, the configuration it hands over is the
    one [loadConfig] returned, and the lookup maps it hands over classify
    every action as a scan of that configuration's lists does. *)
Theorem main_hands_over `{Runtime} (newClient : option error) (w w' : World)
    (cfg : Config) (g : Main.Globals) :
  Main.main newClient w = (inl (cfg, g), w') →
  newClient = None
  ∧ fst (loadConfig "config.json" w) = inl cfg
  ∧ w' = appended (snd (loadConfig "config.json" w)) [Log "Docker client created"]
  ∧ ∀ action, Main.getEventLevel g action = Part000.getEventLevel action cfg.
Proof.
  unfold Main.main, mbind, IO_bind. intros Hmain.
  destruct (loadConfig "config.json" w) as [[cfg0|err] w0]; [|discriminate].
  destruct newClient as [e|]; [discriminate|].
  injection Hmain as -> <- <-.
  repeat split. intros action. apply getEventLevel_agree_after_populate.
Qed.

Lemma main_hands_over_witness :
  let rt := sampleRuntime (inr "offline") in
  let w := quietWorld {[ "config.json" := defaultConfigJSON ]} in
  @Main.main rt None w
  = (inl (defaultConfig, Main.populateActionMaps defaultConfig Main.init),
     appended w [Log "Docker client created"])
  ∧ Main.getEventLevel (Main.populateActionMaps defaultConfig Main.init) "stop"
    = Part000.getEventLevel "stop" defaultConfig.
Proof.
  split; [reflexivity|].
  apply (@main_hands_over (sampleRuntime (inr "offline")) None
           (quietWorld {[ "config.json" := defaultConfigJSON ]})
           (appended (quietWorld {[ "config.json" := defaultConfigJSON ]})
              [Log "Docker client created"])
           defaultConfig (Main.populateActionMaps defaultConfig Main.init)).
  reflexivity.
Defined.

(** X22.  First start: with no [config.json] and nothing refused, [main]
    writes the encoded default configuration to [config.json] whether or
    not the Docker client can be created afterwards.  If it can, the loop
    is started with the default configuration (and, in [main.go], with
    the maps filled from it); if it cannot, the process exits with
    status 1 and the file it created stays. *)
Theorem main_first_start `{Runtime} (newClient : option error) (w : World) :
  (∀ s, w_deny w s "config.json" = None) →
  w_files w !! "config.json" = None →
  w_files (snd (Main.main newClient w))
  = <["config.json" := fst (json_MarshalIndent defaultConfig "" "  ")]> (w_files w)
  ∧ w_files (snd (Part000.main newClient w))
    = <["config.json" := fst (json_MarshalIndent defaultConfig "" "  ")]> (w_files w)
  ∧ fst (Main.main newClient w)
    = match newClient with
      | None => inl (defaultConfig, Main.populateActionMaps defaultConfig Main.init)
      | Some _ => inr 1
      end
  ∧ fst (Part000.main newClient w)
    = match newClient with
      | None => inl defaultConfig
      | Some _ => inr 1
      end.
Proof.
  intros Hok Hnone.
  pose proof (loadConfig_absent "config.json" w Hok Hnone) as Hload.
  unfold Main.main, Part000.main.
  rewrite !(bind_run _ _ w _ _ Hload).
  by destruct newClient.
Qed.

Lemma main_first_start_witness :
  w_files (snd (@Main.main (sampleRuntime (inr "offline"))
                  (Some "cannot connect to the Docker daemon") (quietWorld ∅)))
  = {[ "config.json" := defaultConfigJSON ]}
  ∧ fst (@Main.main (sampleRuntime (inr "offline"))
           (Some "cannot connect to the Docker daemon") (quietWorld ∅))
    = inr 1.
Proof.
  pose proof (@main_first_start (sampleRuntime (inr "offline"))
                (Some "cannot connect to the Docker daemon") (quietWorld ∅)
                (fun _ => eq_refl) eq_refl) as (Hfiles & _ & Hres & _).
  split; [exact Hfiles|exact Hres].
Defined.
